(** * generate_platform_pages.py: a shallow embedding and its properties

    The script turns a fixed list of Word documents into static HTML pages.
    This development embeds its helpers ([cut_section], [classify_line],
    [build_content_html], [wrap_page]) as Rocq functions and its driver
    ([read_docx_paragraphs], [extract_docx_images], [main]) in a state and
    exception monad over a model of the file system.

    Python [str] values are lists of Unicode code points; literals are
    written as in the source and decoded from UTF-8. *)

From Stdlib Require Import NArith String Ascii.
From stdpp Require Import gmap list pretty.

Local Open Scope N_scope.
Local Open Scope list_scope.

(** ** Python strings *)

Module Str.

(** A [str] is a sequence of code points. *)
Definition str := list N.

(** UTF-8 decoding of a well-formed byte sequence (the source file's
    encoding), one code point per 1 to 4 bytes. *)
Fixpoint utf8_decode (bs : list N) : str :=
  match bs with
  | [] => []
  | b0 :: t0 =>
    if b0 <? 128 then b0 :: utf8_decode t0
    else match t0 with
    | [] => [b0]
    | b1 :: t1 =>
      if b0 <? 224 then (N.land b0 31 * 64 + N.land b1 63) :: utf8_decode t1
      else match t1 with
      | [] => [b0; b1]
      | b2 :: t2 =>
        if b0 <? 240
        then (N.land b0 15 * 4096 + N.land b1 63 * 64 + N.land b2 63)
               :: utf8_decode t2
        else match t2 with
        | [] => [b0; b1; b2]
        | b3 :: t3 =>
          (N.land b0 7 * 262144 + N.land b1 63 * 4096
           + N.land b2 63 * 64 + N.land b3 63) :: utf8_decode t3
        end
      end
    end
  end.

Fixpoint bytes_of_string (s : string) : list N :=
  match s with
  | EmptyString => []
  | String a s' => N_of_ascii a :: bytes_of_string s'
  end.

(** A string literal of the source. *)
Definition lit (s : string) : str := utf8_decode (bytes_of_string s).

(** The double quote, and markup literals: in [tpl] a backquote stands for
    the double quote of the source literal (no literal of the script holds a
    backquote). *)
Definition dquote : N := 34.
Definition newline : str := [10].
Definition backquote : N := 96.

Definition tpl (s : string) : str :=
  (fun c => if c =? backquote then dquote else c) <$> lit s.

Definition str_eqb (a b : str) : bool := bool_decide (a = b).

(** [s.startswith(pre)]. *)
Fixpoint startswith (pre s : str) : bool :=
  match pre, s with
  | [], _ => true
  | _ :: _, [] => false
  | a :: pre', b :: s' => (a =? b) && startswith pre' s'
  end.

(** [s.endswith(suf)]. *)
Definition endswith (suf s : str) : bool := startswith (rev suf) (rev s).

(** [s.endswith((a, b, ...))]: any of a tuple of suffixes. *)
Definition endswith_any (sufs : list str) (s : str) : bool :=
  existsb (fun suf => endswith suf s) sufs.

(** [needle in hay]: substring test. *)
Fixpoint contains (needle hay : str) : bool :=
  startswith needle hay ||
  match hay with
  | [] => false
  | _ :: hay' => contains needle hay'
  end.

(** Number of positions of [hay] at which [needle] occurs. *)
Fixpoint count_sub (needle hay : str) : nat :=
  match hay with
  | [] => 0%nat
  | _ :: hay' =>
    ((if startswith needle hay then 1 else 0) + count_sub needle hay')%nat
  end.

(** [sep.join(pieces)]. *)
Fixpoint join (sep : str) (pieces : list str) : str :=
  match pieces with
  | [] => []
  | [x] => x
  | x :: rest => x ++ sep ++ join sep rest
  end.

(** White space as [str.isspace], [str.strip] and the pattern [\s] see it. *)
Definition isspace (c : N) : bool :=
  ((9 <=? c) && (c <=? 13)) || ((28 <=? c) && (c <=? 32))
  || (c =? 133) || (c =? 160) || (c =? 5760)
  || ((8192 <=? c) && (c <=? 8202))
  || (c =? 8232) || (c =? 8233) || (c =? 8239) || (c =? 8287)
  || (c =? 12288).

Fixpoint lstrip (s : str) : str :=
  match s with
  | [] => []
  | c :: s' => if isspace c then lstrip s' else s
  end.

Definition rstrip (s : str) : str := rev (lstrip (rev s)).

(** [s.strip()]. *)
Definition strip (s : str) : str := rstrip (lstrip s).

(** [s.replace(old, new)] for a one-character [old]. *)
Definition replace1 (old : N) (new : str) (s : str) : str :=
  mbind (fun c => if c =? old then new else [c]) s.

(** [html.escape(s)] with its default [quote=True]. *)
Definition escape (s : str) : str :=
  let s := replace1 38 (lit "&amp;") s in
  let s := replace1 60 (lit "&lt;") s in
  let s := replace1 62 (lit "&gt;") s in
  let s := replace1 dquote (lit "&quot;") s in
  let s := replace1 39 (lit "&#x27;") s in
  s.

(** [s.split(sep, 1)]: split at the first occurrence of [sep]. *)
Fixpoint split1_aux (sep before s : str) : list str :=
  if startswith sep s then [rev before; drop (length sep) s]
  else match s with
  | [] => [rev before]
  | c :: s' => split1_aux sep (c :: before) s'
  end.

Definition split1 (sep s : str) : list str := split1_aux sep [] s.

End Str.
Import Str.


(** ** Unicode tables

    [str.lower], [str.title] and the patterns [\d] and [\w] consult the
    Unicode character database, which is not part of the script: the
    embedding takes them as an interface. [\d] is [isdecimal]; [\w] is
    [isalnum] or an underscore; every decimal digit is alphanumeric. *)

Class Unicode := {
  isdecimal : N → bool;
  isalnum : N → bool;
  lower : str → str;
  title : str → str;
  isdecimal_isalnum : ∀ c, isdecimal c = true → isalnum c = true
}.

(** The tables restricted to ASCII: what the database says of the code
    points below 128, every other code point being taken as caseless and
    neither a digit nor a letter. *)
Module Ascii_tables.

Definition is_upper (c : N) : bool := (65 <=? c) && (c <=? 90).
Definition is_lower (c : N) : bool := (97 <=? c) && (c <=? 122).
Definition is_digit (c : N) : bool := (48 <=? c) && (c <=? 57).
Definition is_alnum (c : N) : bool := is_upper c || is_lower c || is_digit c.

Definition to_lower (s : str) : str :=
  (fun c => if is_upper c then c + 32 else c) <$> s.

(** [str.title]: the first cased character of each run of cased characters
    is upper-cased, the others lower-cased. *)
Fixpoint to_title_aux (prev_cased : bool) (s : str) : str :=
  match s with
  | [] => []
  | c :: s' =>
    if is_upper c then (if prev_cased then c + 32 else c) :: to_title_aux true s'
    else if is_lower c then (if prev_cased then c else c - 32) :: to_title_aux true s'
    else c :: to_title_aux false s'
  end.

Definition to_title (s : str) : str := to_title_aux false s.

End Ascii_tables.

Definition ascii_unicode : Unicode.
Proof.
  refine {| isdecimal := Ascii_tables.is_digit;
            isalnum := Ascii_tables.is_alnum;
            lower := Ascii_tables.to_lower;
            title := Ascii_tables.to_title |}.
  unfold Ascii_tables.is_alnum. intros c ->. apply orb_true_r.
Defined.

(** ** Regular expressions

    The fragment of [re] the script uses: a pattern is a sequence of atoms,
    matched at the start of the line ([re.match], [^]) with backtracking. *)

Module Re.

Inductive atom :=
| Alt (alts : list str)     (* (A|B) over literals *)
| Plus (cls : N → bool)     (* one or more characters of a class *)
| WordB.                    (* \b *)

Section Match.
Context `{Unicode}.

Definition isword (c : N) : bool := isalnum c || (c =? 95).

Definition isword_opt (c : option N) : bool :=
  match c with Some c => isword c | None => false end.

(** [at_boundary prev s]: the position between [prev] and the head of [s] has
    a word character on exactly one side. *)
Definition at_boundary (prev : option N) (s : str) : bool :=
  xorb (isword_opt prev) (isword_opt (head s)).

(** Last character consumed once the literal [a] has been read. *)
Definition prev_after (a : str) (prev : option N) : option N :=
  match last a with Some c => Some c | None => prev end.

(** [cls+] followed by the rest of the pattern [k]: one character of the
    class, then either more of them or the rest. *)
Fixpoint plus (cls : N → bool) (k : option N → str → bool) (s : str) : bool :=
  match s with
  | [] => false
  | c :: s' => cls c && (plus cls k s' || k (Some c) s')
  end.

Fixpoint match_here (pat : list atom) (prev : option N) (s : str) : bool :=
  match pat with
  | [] => true
  | Alt alts :: pat' =>
    existsb (fun a => startswith a s
                      && match_here pat' (prev_after a prev) (drop (length a) s)) alts
  | Plus cls :: pat' => plus cls (match_here pat') s
  | WordB :: pat' => at_boundary prev s && match_here pat' prev s
  end.

(** [re.match(pat, line)] as a truth value. *)
Definition re_match (pat : list atom) (line : str) : bool :=
  match_here pat None line.

End Match.
End Re.

(** ** Section Clipper *)

Section Clipper.
Context `{Unicode}.

(** [m.lower() in line.lower()]. *)
Definition contains_ci (m line : str) : bool := contains (lower m) (lower line).

(** The inner loop of [cut_section]: some marker is found in the line. *)
Definition line_hits (end_markers : list str) (line : str) : bool :=
  existsb (fun m => contains_ci m line) end_markers.

(** The loop of [cut_section]: [rest] is what [enumerate(paras)] still has
    to yield, from index [i] on. *)
Fixpoint cut_loop (end_markers : list str) (paras : list str) (i : nat)
    (rest : list str) : list str :=
  match rest with
  | [] => paras
  | line :: rest' =>
    if line_hits end_markers line then take i paras
    else cut_loop end_markers paras (S i) rest'
  end.

Definition cut_section (paras : list str) (end_markers : option (list str)) : list str :=
  match end_markers with
  | None | Some [] => paras
  | Some ms => cut_loop ms paras 0 paras
  end.

End Clipper.

(** ** Line Classifier *)

Inductive kind := Kh2 | Kh3 | Kcore | Kp.

Global Instance kind_eq_dec : EqDecision kind.
Proof. solve_decision. Defined.

Section Classifier.
Context `{Unicode}.

Definition re_module : list Re.atom :=
  [Re.Alt [lit "MODULE"; lit "Module"]; Re.Plus isspace; Re.Plus isdecimal; Re.WordB].

Definition re_summary : list Re.atom :=
  [Re.Alt [lit "Executive Summary"; lit "EXECUTIVE SUMMARY"]; Re.WordB].

Definition re_core : list Re.atom :=
  [Re.Alt [lit "Core Principle:"]; Re.WordB].

Definition subsection_titles : list str :=
  [lit "Framework"; lit "Case Studies"; lit "Challenge Exercise";
   lit "What This Module Builds"; lit "Real-World Applications";
   lit "Key Takeaways"; lit "Closing"; lit "Conclusion"].

Definition classify_line (line : str) : kind :=
  if Re.re_match re_module line then Kh2
  else if Re.re_match re_summary line then Kh2
  else if Re.re_match re_core line then Kcore
  else if existsb (str_eqb (strip line)) subsection_titles then Kh3
  else Kp.

End Classifier.

(** ** Content Renderer *)

Record render_state := {
  out : list str;            (* the pieces appended so far *)
  in_ul : bool;              (* a list container is open *)
  prev_kind : option kind    (* kind of the line before; None at the start *)
}.

Definition emit (piece : str) (st : render_state) : render_state :=
  {| out := out st ++ [piece]; in_ul := in_ul st; prev_kind := prev_kind st |}.

Definition set_in_ul (b : bool) (st : render_state) : render_state :=
  {| out := out st; in_ul := b; prev_kind := prev_kind st |}.

Definition set_prev_kind (k : kind) (st : render_state) : render_state :=
  {| out := out st; in_ul := in_ul st; prev_kind := Some k |}.

Definition ul_close : str := lit "</ul>".
Definition ul_open : str := tpl "<ul class=`bul`>".
Definition li_piece (line : str) : str := lit "<li>" ++ escape line ++ lit "</li>".
Definition p_piece (line : str) : str := tpl "<p class=`p`>" ++ escape line ++ lit "</p>".
Definition h2_piece (line : str) : str := tpl "<h2 class=`sec`>" ++ escape line ++ lit "</h2>".
Definition h3_piece (line : str) : str := tpl "<h3 class=`subsec`>" ++ escape line ++ lit "</h3>".

(** [line.split("Core Principle:",1)[1].strip()]. The index 1 exists
    whenever the line is classified [Kcore] (lemma [core_payload_defined]),
    so the [IndexError] of the source cannot happen there. *)
Definition core_payload (line : str) : str :=
  strip (default [] (split1 (lit "Core Principle:") line !! 1%nat)).

Definition core_piece (line : str) : str :=
  tpl "<p class=`core`><strong>" ++ escape (lit "Core Principle:")
  ++ lit "</strong> " ++ escape (core_payload line) ++ lit "</p>".

Definition close_ul (st : render_state) : render_state :=
  if in_ul st then set_in_ul false (emit ul_close st) else st.

(** [len(line) <= 110 and line.endswith((".", ")", "—"))]. *)
Definition looks_bulleted (line : str) : bool :=
  bool_decide (length line ≤ 110)%nat
  && endswith_any [lit "."; lit ")"; lit "—"] line.

Section Renderer.
Context `{Unicode}.

(** One iteration of the loop of [build_content_html]. *)
Definition render_line (st : render_state) (raw : str) : render_state :=
  let line := strip raw in
  let kind := classify_line line in
  let st := if bool_decide (kind ∈ [Kh2; Kh3]) then close_ul st else st in
  let st :=
    match kind with
    | Kh2 => emit (h2_piece line) st
    | Kh3 => emit (h3_piece line) st
    | Kcore => emit (core_piece line) (close_ul st)
    | Kp =>
      let bullet_context := bool_decide (prev_kind st = Some Kh3) in
      if bullet_context && looks_bulleted line then
        let st := if negb (in_ul st) then set_in_ul true (emit ul_open st) else st in
        emit (li_piece line) st
      else emit (p_piece line) (close_ul st)
    end in
  set_prev_kind kind st.

Definition render_init : render_state :=
  {| out := []; in_ul := false; prev_kind := None |}.

(** The state when the loop has gone through [paras]. *)
Definition render_lines (paras : list str) : render_state :=
  foldl render_line render_init paras.

(** The list [out] at the [return] of [build_content_html]. *)
Definition content_pieces (paras : list str) : list str :=
  out (close_ul (render_lines paras)).

Definition build_content_html (paras : list str) : str :=
  join newline (content_pieces paras).

End Renderer.

(** ** Page Assembler *)

Module Page.

(** A literal of several lines. *)
Definition lines (ls : list str) : str := join newline ls.

(** The literal bound to [nav]. *)
Definition nav : str :=
  lines
    [tpl "";
     tpl "      <a href=`index.html`>All Modules</a>";
     tpl "      <a href=`platforms/business.html`>Business</a>";
     tpl "      <a href=`platforms/sports.html`>Sports</a>";
     tpl "      <a href=`platforms/if.html`>If—</a>";
     tpl "      <a href=`platforms/guitar.html`>Guitar</a>";
     tpl "      <a href=`platforms/spiritual.html`>Spiritual</a>";
     tpl "      <a href=`platforms/dadjokes.html`>Dad Jokes</a>";
     tpl "      <a href=`platforms/power.html`>Power</a>";
     tpl "      <a href=`platforms/art.html`>Art/Sketch</a>";
     tpl "    "].

(** The gallery literal up to [{imgs}]. *)
Definition gallery_before : str :=
  lines
    [tpl "";
     tpl "        <section class=`card`>";
     tpl "          <h2 class=`sec`>Images from the Word document</h2>";
     tpl "          <p class=`note`>These were extracted automatically. You can later move each image into the exact module where it belongs.</p>";
     tpl "          <div class=`imggrid`>";
     tpl "            "].

(** The gallery literal after [{imgs}]. *)
Definition gallery_after : str :=
  lines
    [tpl "";
     tpl "          </div>";
     tpl "        </section>";
     tpl "        "].

(** The page literal up to the first [{escape(title)}]. *)
Definition page_before_title : str :=
  lines
    [tpl "<!doctype html>";
     tpl "<html lang=`en`>";
     tpl "<head>";
     tpl "  <meta charset=`utf-8` />";
     tpl "  <meta name=`viewport` content=`width=device-width,initial-scale=1` />";
     tpl "  <title>"].

(** ... up to [{nav}]. *)
Definition page_before_nav : str :=
  lines
    [tpl "</title>";
     tpl "  <style>";
     tpl "    :root {";
     tpl "      --bg:#0b0f17; --panel:#101827; --text:#e9eefc; --muted:#b7c2df; --line:rgba(255,255,255,.12);";
     tpl "      --accent:#ff7a18; --shadow:0 18px 60px rgba(0,0,0,.45);";
     tpl "      --r:18px; --r2:24px; --max:1100px;";
     tpl "      --sans: ui-sans-serif, system-ui, -apple-system, Segoe UI, Roboto, Helvetica, Arial;";
     tpl "    }";
     tpl "    *{box-sizing:border-box}";
     tpl "    body{margin:0;font-family:var(--sans);color:var(--text);background:linear-gradient(180deg,#070a11,var(--bg));}";
     tpl "    .wrap{max-width:var(--max);margin:0 auto;padding:0 22px;}";
     tpl "    header{position:sticky;top:0;z-index:40;backdrop-filter: blur(12px);background:rgba(10,15,24,.75);border-bottom:1px solid var(--line);}";
     tpl "    .top{display:flex;gap:14px;align-items:center;justify-content:space-between;padding:14px 0;flex-wrap:wrap;}";
     tpl "    .brand{font-weight:800;letter-spacing:.2px}";
     tpl "    nav a{color:var(--muted);text-decoration:none;border:1px solid var(--line);padding:8px 12px;border-radius:999px;font-size:13px;}";
     tpl "    nav a:hover{color:var(--text);border-color:rgba(255,255,255,.22)}";
     tpl "    .hero{padding:26px 0 10px;}";
     tpl "    .hero h1{margin:0 0 8px;font-size:34px;letter-spacing:-.02em}";
     tpl "    .hero p{margin:0;color:var(--muted);max-width:75ch;line-height:1.55}";
     tpl "    .card{border:1px solid var(--line);background:rgba(16,24,39,.58);border-radius:var(--r2);box-shadow:var(--shadow);padding:18px;margin:14px 0;}";
     tpl "    .sec{margin:0 0 10px;font-size:20px;letter-spacing:-.01em}";
     tpl "    .subsec{margin:14px 0 8px;font-size:16px;color:var(--text)}";
     tpl "    .p{margin:0 0 10px;color:var(--muted);line-height:1.6}";
     tpl "    .core{margin:0 0 10px;color:var(--muted);line-height:1.6;border-left:3px solid rgba(255,122,24,.55);padding-left:12px}";
     tpl "    .bul{margin:6px 0 10px;padding-left:18px;color:var(--muted);line-height:1.55}";
     tpl "    .bul li{margin:6px 0}";
     tpl "    .note{color:rgba(255,255,255,.65);font-size:13px;line-height:1.5}";
     tpl "    .imggrid{display:grid;grid-template-columns:repeat(3,minmax(0,1fr));gap:10px}";
     tpl "    .img{border:1px solid var(--line);border-radius:16px;overflow:hidden;background:rgba(0,0,0,.12);margin:0}";
     tpl "    .img img{width:100%;height:160px;object-fit:cover;display:block}";
     tpl "    .img figcaption{padding:8px 10px;color:rgba(255,255,255,.65);font-size:12px}";
     tpl "    @media (max-width: 920px){ .imggrid{grid-template-columns:1fr} }";
     tpl "    footer{border-top:1px solid var(--line);padding:26px 0 44px;color:rgba(255,255,255,.62);font-size:13px;margin-top:24px}";
     tpl "  </style>";
     tpl "</head>";
     tpl "<body>";
     tpl "<header>";
     tpl "  <div class=`wrap`>";
     tpl "    <div class=`top`>";
     tpl "      <div class=`brand`>Luke Carter · Platforms</div>";
     tpl "      <nav aria-label=`platform navigation`>"].

(** ... up to the second [{escape(title)}]. *)
Definition page_before_h1 : str :=
  lines
    [tpl "</nav>";
     tpl "    </div>";
     tpl "  </div>";
     tpl "</header>";
     tpl "";
     tpl "<div class=`wrap`>";
     tpl "  <section class=`hero`>";
     tpl "    <h1>"].

(** ... up to [{content_html}]. *)
Definition page_before_content : str :=
  lines
    [tpl "</h1>";
     tpl "    <p>This page is generated directly from the Word document so no module content gets lost. If you update the doc, re-run the script.</p>";
     tpl "  </section>";
     tpl "";
     tpl "  <section class=`card`>";
     tpl "    "].

(** ... up to [{gallery}]. *)
Definition page_before_gallery : str :=
  lines
    [tpl "";
     tpl "  </section>";
     tpl "";
     tpl "  "].

(** ... after [{gallery}]. *)
Definition page_after_gallery : str :=
  lines
    [tpl "";
     tpl "";
     tpl "  <footer>";
     tpl "    Tip: If a doc contains multiple platforms appended, adjust END_MARKERS in the script so each page cuts off at the correct boundary.";
     tpl "  </footer>";
     tpl "</div>";
     tpl "</body>";
     tpl "</html>";
     tpl ""].

End Page.

(** One [<figure>] of the gallery. *)
Definition figure (platform_key name : str) : str :=
  tpl "<figure class=`img`><img src=`../images/" ++ platform_key ++ lit "/"
  ++ escape name ++ tpl "` alt=`" ++ escape name ++ tpl "`><figcaption>"
  ++ escape name ++ lit "</figcaption></figure>".

(** The value of [gallery] in [wrap_page]. *)
Definition gallery (platform_key : str) (extracted_images : list str) : str :=
  match extracted_images with
  | [] => []
  | _ =>
    let imgs := join newline (figure platform_key <$> extracted_images) in
    Page.gallery_before ++ imgs ++ Page.gallery_after
  end.

Definition wrap_page (platform_key title content_html : str)
    (extracted_images : list str) : str :=
  Page.page_before_title ++ escape title
  ++ Page.page_before_nav ++ Page.nav
  ++ Page.page_before_h1 ++ escape title
  ++ Page.page_before_content ++ content_html
  ++ Page.page_before_gallery ++ gallery platform_key extracted_images
  ++ Page.page_after_gallery.

(** ** Configuration *)

Definition DOCS : list (str * str) :=
  [(lit "business", lit "Business and Entrepenurship Platform.docx");
   (lit "sports", lit "THE SPORTS LEADERSHIP PLATFORM.docx");
   (lit "if", lit "If Leadership Platform.docx");
   (lit "guitar", lit "THE GUITAR TRAINING PLATFORM.docx");
   (lit "spiritual", lit "Spiritual Leadership.docx");
   (lit "dadjokes", lit "THE DAD JOKE MASTERY PLATFORM.docx");
   (lit "power", lit "Power platform.docx");
   (lit "art", lit "🎨 THE ADVANCED SKETCH PLATFORM.docx")].

Definition END_MARKERS : gmap str (list str) :=
  <[lit "sports" := [lit "🎨"; lit "THE ADVANCED SKETCH"; lit "See More. Choose More. Create More."]]>
  (<[lit "spiritual" := [lit "See More. Choose More. Create More."; lit "🎨"; lit "THE ADVANCED SKETCH"]]> ∅).

Definition OUT_DIR : str := lit "platforms".
Definition IMG_DIR : str := lit "images".

(** ** The file system and the driver

    What the script sees of a file's bytes: a zip archive with its entries
    in listing order, a well-formed XML document, or anything else. Only
    regular files are modelled: directories exist as needed, [mkdir] with
    [exist_ok=True] changes nothing, and paths are compared as written. *)

Module Driver.

(** The XML body as [read_docx_paragraphs] walks it: for each element that
    [.//w:p] finds, the [.text] of the elements that [.//w:t] finds in it. *)
Definition wpara := list (option str).

#[warnings="-register-all"]
Inductive blob :=
| Zip (entries : list (str * blob))
| XmlDoc (body : list wpara)
| Text (s : str)
| Opaque (data : list N).

Record world := {
  files : gmap str blob;
  stdout : list str
}.

Inductive exn :=
| FileNotFoundError
| BadZipFile
| KeyError
| ParseError.

Inductive outcome (A : Type) :=
| Returned (a : A)
| Raised (e : exn).
Global Arguments Returned {A} a.
Global Arguments Raised {A} e.

(** Computations that read and write the world and may raise; what was
    written before an exception stays written. *)
Definition io (A : Type) : Type := world → outcome A * world.

Global Instance io_ret : MRet io := λ A a w, (Returned a, w).

Global Instance io_bind : MBind io := λ A B f m w,
  match m w with
  | (Returned a, w') => f a w'
  | (Raised e, w') => (Raised e, w')
  end.

Definition raise {A} (e : exn) : io A := λ w, (Raised e, w).

(** [for x in xs: body(x)]. *)
Fixpoint for_each {A} (xs : list A) (body : A → io unit) : io unit :=
  match xs with
  | [] => mret ()
  | x :: xs' => body x ;; for_each xs' body
  end.

(** [Path(path).exists()]. *)
Definition path_exists (path : str) : io bool :=
  λ w, (Returned (bool_decide (is_Some (files w !! path))), w).

Definition print (s : str) : io unit :=
  λ w, (Returned (), {| files := files w; stdout := stdout w ++ [s] |}).

(** [Path.write_text] and [Path.write_bytes]. *)
Definition write (path : str) (b : blob) : io unit :=
  λ w, (Returned (), {| files := <[path := b]> (files w); stdout := stdout w |}).

Definition mkdir (path : str) : io unit := mret ().

(** [zipfile.ZipFile(path, "r")]. *)
Definition open_zip (path : str) : io (list (str * blob)) :=
  λ w, match files w !! path with
       | None => (Raised FileNotFoundError, w)
       | Some (Zip entries) => (Returned entries, w)
       | Some _ => (Raised BadZipFile, w)
       end.

(** [z.read(name)]: the last entry of that name. *)
Definition zip_read (entries : list (str * blob)) (name : str) : io blob :=
  match last (filter (λ e, e.1 = name) entries) with
  | Some e => mret e.2
  | None => raise KeyError
  end.

(** [z.namelist()]. *)
Definition namelist (entries : list (str * blob)) : list str := fst <$> entries.

(** [ET.fromstring(xml)]. *)
Definition fromstring (b : blob) : io (list wpara) :=
  match b with
  | XmlDoc body => mret body
  | _ => raise ParseError
  end.

(** [re.sub(r"[ \t]+", " ", line)]. *)
Fixpoint collapse_blanks (in_run : bool) (s : str) : str :=
  match s with
  | [] => []
  | c :: s' =>
    if (c =? 32) || (c =? 9)
    then (if in_run then collapse_blanks true s' else 32 :: collapse_blanks true s')
    else c :: collapse_blanks false s'
  end.

(** The texts a paragraph element contributes: [if t.text]. *)
Definition run_texts (p : wpara) : list str :=
  omap (λ t, match t with Some (c :: r) => Some (c :: r) | _ => None end) p.

Definition paragraph_line (p : wpara) : option str :=
  let line := strip (concat (run_texts p)) in
  match line with
  | [] => None
  | _ => Some (collapse_blanks false line)
  end.

Definition read_docx_paragraphs (docx_path : str) : io (list str) :=
  entries ← open_zip docx_path;
  xml ← zip_read entries (lit "word/document.xml");
  root ← fromstring xml;
  mret (omap paragraph_line root).

(** [Path(f).name]: the last component, empty and [.] components apart. *)
Fixpoint components (cur : str) (s : str) : list str :=
  match s with
  | [] => [rev cur]
  | c :: s' => if c =? 47 then rev cur :: components [] s' else components (c :: cur) s'
  end.

Definition path_name (f : str) : str :=
  default [] (last (filter (λ c, c ≠ [] ∧ c ≠ lit ".") (components [] f))).

(** [a / b] on paths. *)
Definition path_join (a b : str) : str := a ++ lit "/" ++ b.

(** The loop of [extract_docx_images] over [media_files]. *)
Fixpoint extract_loop (entries : list (str * blob)) (out_folder : str)
    (media_files : list str) (extracted : list str) : io (list str) :=
  match media_files with
  | [] => mret extracted
  | f :: media_files' =>
    data ← zip_read entries f;
    let name := path_name f in
    let target := path_join out_folder name in
    write target data;;
    extract_loop entries out_folder media_files' (extracted ++ [name])
  end.

Definition extract_docx_images (docx_path out_folder : str) : io (list str) :=
  mkdir out_folder;;
  entries ← open_zip docx_path;
  let media_files :=
    filter (λ f, startswith (lit "word/media/") f = true) (namelist entries) in
  extract_loop entries out_folder media_files [].

Section Main.
Context `{Unicode}.

(** The body of the loop of [main]. *)
Definition main_entry (entry : str * str) : io unit :=
  let '(key, filename) := entry in
  let docx := filename in
  present ← path_exists docx;
  if negb present then print (lit "[SKIP] Missing: " ++ filename)
  else
    print (lit "[READ] " ++ filename);;
    paras ← read_docx_paragraphs docx;
    let paras := cut_section paras (END_MARKERS !! key) in
    let title := match paras with
                 | first :: _ => first
                 | [] => title key ++ lit " Platform"
                 end in
    let img_out := path_join IMG_DIR key in
    extracted ← extract_docx_images docx img_out;
    let content_html := build_content_html paras in
    let html := wrap_page key title content_html extracted in
    let out_file := path_join OUT_DIR (key ++ lit ".html") in
    write out_file (Text html);;
    print (lit "[WRITE] " ++ out_file ++ lit " (+ "
           ++ lit (pretty (length extracted)) ++ lit " images)").

Definition main_loop (docs : list (str * str)) : io unit :=
  for_each docs main_entry.

Definition main : io unit :=
  mkdir OUT_DIR;;
  mkdir IMG_DIR;;
  main_loop DOCS;;
  print (newline ++ lit "Done. Upload /platforms and /images to GitHub.").

End Main.
End Driver.

(** ** Vocabulary of the properties *)

(** No proper, non-empty prefix of [needle] ends [a]: an occurrence of
    [needle] in [a ++ b] lies in [a] or in [b]. *)
Fixpoint border_free (needle a : str) : bool :=
  match a with
  | [] => true
  | _ :: a' =>
    (bool_decide (length needle ≤ length a)%nat || negb (startswith a needle))
    && border_free needle a'
  end.

(** The pieces that stand for one line each, outside lists. *)
Inductive plain_piece : str → Prop :=
| plain_h2 line : plain_piece (h2_piece line)
| plain_h3 line : plain_piece (h3_piece line)
| plain_core line : plain_piece (core_piece line)
| plain_p line : plain_piece (p_piece line).

(** The shape of the piece list of [build_content_html]: plain pieces and
    closed lists of one item. *)
Inductive rendered : list str → Prop :=
| rendered_nil : rendered []
| rendered_plain piece o :
    plain_piece piece → rendered o → rendered (piece :: o)
| rendered_list line o :
    rendered o → rendered (ul_open :: li_piece line :: ul_close :: o).

(** Number of list containers opened in a piece list. *)
Definition lists_in (o : list str) : nat :=
  length (filter (λ piece, piece = ul_open) o).

(** The invariant of the loop of [build_content_html]: an open list holds
    one item and was not opened by the line before a minor heading. *)
Definition render_inv (st : render_state) : Prop :=
  if in_ul st
  then ∃ o line, out st = o ++ [ul_open; li_piece line]
                 ∧ rendered o ∧ prev_kind st ≠ Some Kh3
  else rendered (out st).

(** Markup that only the gallery block of [wrap_page] holds. *)
Definition gallery_markers : list str :=
  [tpl "<div class=`imggrid`>"; lit "<figure"; tpl "<p class=`note`>"].

(** The characters that [escape] rewrites. *)
Definition markup_chars : str := lit "&<>'" ++ [dquote].

Import Driver.

(** What a computation did to the world: the files written, in order, and
    the lines printed. *)
Definition effects (ws : list (str * blob)) (pr : list str) (w : world) : world :=
  {| files := foldl (λ m e, <[e.1 := e.2]> m) (files w) ws;
     stdout := stdout w ++ pr |}.

(** Sample documents and worlds. *)
Definition sample_docx : blob :=
  Zip [(lit "word/document.xml",
        XmlDoc [[Some (lit "The Sports "); Some (lit "Platform")];
                [Some (lit "Module 1")];
                [Some (lit "Framework")];
                [Some (lit "Builds trust.")]]);
       (lit "word/media/image1.png", Opaque [137; 80; 78; 71])].

(** The same paragraphs and image names in another archive: other runs,
    other image bytes, one more entry. *)
Definition sample_docx_bis : blob :=
  Zip [(lit "docProps/app.xml", Opaque []);
       (lit "word/media/image1.png", Opaque [255; 216; 255]);
       (lit "word/document.xml",
        XmlDoc [[Some (lit "The Sports Platform")];
                [None];
                [Some (lit "Module"); Some (lit " 1")];
                [Some (lit "Framework")];
                [Some (lit "Builds  trust.")]])].

Definition sports_docx : str := lit "THE SPORTS LEADERSHIP PLATFORM.docx".
Definition business_docx : str := lit "Business and Entrepenurship Platform.docx".

(** Only the sports document is there. *)
Definition world_missing : world :=
  {| files := <[sports_docx := sample_docx]> ∅; stdout := [] |}.

(** The business document is there but is no archive. *)
Definition world_not_zip : world :=
  {| files := <[business_docx := Opaque (lit "not an archive")]>
              (<[sports_docx := sample_docx]> ∅);
     stdout := [] |}.

(** The business document is an archive without [word/document.xml]. *)
Definition world_no_body : world :=
  {| files := <[business_docx := Zip [(lit "word/media/image1.png", Opaque [1])]]>
              (<[sports_docx := sample_docx]> ∅);
     stdout := [] |}.

(** A world that holds the other archive and a page of an earlier run. *)
Definition world_bis : world :=
  {| files := <[sports_docx := sample_docx_bis]>
              (<[lit "platforms/sports.html" := Text (lit "stale")]> ∅);
     stdout := [lit "earlier output"] |}.

(** ** Vocabulary of the further properties *)

(** The shapes of line that the patterns of [classify_line] accept. *)
Section Shapes.
Context `{Unicode}.

Definition module_shape (line : str) : Prop :=
  ∃ w ws ds rest,
    (w = lit "MODULE" ∨ w = lit "Module")
    ∧ ws ≠ [] ∧ Forall (λ c, isspace c = true) ws
    ∧ ds ≠ [] ∧ Forall (λ c, isdecimal c = true) ds
    ∧ Re.isword_opt (head rest) = false
    ∧ line = w ++ ws ++ ds ++ rest.

Definition summary_shape (line : str) : Prop :=
  ∃ w rest,
    (w = lit "Executive Summary" ∨ w = lit "EXECUTIVE SUMMARY")
    ∧ Re.isword_opt (head rest) = false
    ∧ line = w ++ rest.

Definition callout_shape (line : str) : Prop :=
  ∃ c rest, Re.isword c = true ∧ line = lit "Core Principle:" ++ c :: rest.

End Shapes.
(** A string that [strip] leaves as it is: no white space at either end. *)
Definition trimmed (s : str) : Prop :=
  (∀ c, head s = Some c → isspace c = false)
  ∧ (∀ c, last s = Some c → isspace c = false).
(** Every [<] of [s] is followed by one of the characters [allowed]. *)
Fixpoint tags_among (allowed : list N) (s : str) : bool :=
  match s with
  | [] => true
  | c :: s' =>
    (if c =? 60
     then match s' with
          | d :: _ => bool_decide (d ∈ allowed)
          | [] => false
          end
     else true)
    && tags_among allowed s'
  end.

(** The first characters of the tags that the renderer writes:
    [<h2], [<h3], [<p], [<ul], [<li], [<strong] and the closing tags. *)
Definition tag_heads : list N := lit "hpuls/".

(** The piece that stands for a line of a given kind. *)
Definition piece_of_kind (k : kind) (line piece : str) : Prop :=
  match k with
  | Kh2 => piece = h2_piece line
  | Kh3 => piece = h3_piece line
  | Kcore => piece = core_piece line
  | Kp => piece = li_piece line ∨ piece = p_piece line
  end.

(** A paragraph as [read_docx_paragraphs] returns it: not empty, without
    white space at its ends, without tabs and without two spaces in a row. *)
Definition normalized (line : str) : Prop :=
  line ≠ [] ∧ trimmed line ∧ (9 ∉ line) ∧ contains [32; 32] line = false.

(** [io] computations that leave alone every path outside [P]. *)
Definition touches_only {A} (P : str → Prop) (m : io A) : Prop :=
  ∀ w path, ¬ P path → files (m w).2 !! path = files w !! path.

(** The paths that a run may write: the pages and the images. *)
Definition output_path (path : str) : Prop :=
  startswith (lit "images/") path = true ∨ startswith (lit "platforms/") path = true.


(** * Properties *)

(** ** Sanity checks of the string model *)

Example lit_emdash : lit "—" = [8212].
Proof. reflexivity. Qed.

Example lit_palette : lit "🎨" = [127912].
Proof. reflexivity. Qed.

Example tpl_quotes : tpl "<ul class=`bul`>" = lit "<ul class=" ++ [34] ++ lit "bul" ++ [34; 62].
Proof. reflexivity. Qed.

Example escape_all : escape (lit "a<b>&'c" ++ [dquote]) = lit "a&lt;b&gt;&amp;&#x27;c&quot;".
Proof. reflexivity. Qed.

Example split1_core : split1 (lit "b:") (lit "ab: c b: d") = [lit "a"; lit " c b: d"].
Proof. reflexivity. Qed.

Example strip_ex : strip (lit "  a b	 ") = lit "a b".
Proof. reflexivity. Qed.


(** ** Lemmas on strings *)

(** Closed decidable facts, by evaluation. *)
Ltac by_compute :=
  lazymatch goal with
  | |- ?P => apply (bool_decide_unpack P); vm_compute; exact I
  end.

Lemma startswith_refl (s : str) : startswith s s = true.
Proof. induction s as [|c s IH]; simpl; [done|]. by rewrite N.eqb_refl. Qed.

Lemma startswith_app (pre s : str) : startswith pre (pre ++ s) = true.
Proof. induction pre as [|c pre IH]; simpl; [done|]. by rewrite N.eqb_refl. Qed.

Lemma startswith_spec (pre s : str) :
  startswith pre s = true ↔ ∃ t, s = pre ++ t.
Proof.
  revert s. induction pre as [|c pre IH]; intros s; simpl.
  - split; [eauto | done].
  - destruct s as [|d s].
    + split; [done | intros [t Ht]; discriminate].
    + rewrite andb_true_iff, N.eqb_eq, IH. split.
      * intros [-> [t ->]]. eauto.
      * intros [t Ht]. injection Ht as -> ->. eauto.
Qed.

Lemma contains_refl (s : str) : contains s s = true.
Proof. destruct s; simpl; [done|]. by rewrite N.eqb_refl, startswith_refl. Qed.

Lemma contains_spec (needle hay : str) :
  contains needle hay = true ↔ ∃ a b, hay = a ++ needle ++ b.
Proof.
  induction hay as [|c hay IH]; simpl.
  - rewrite orb_false_r, startswith_spec. split.
    + intros [t Ht]. by exists [], t.
    + intros (a & b & Hab). destruct a; [by exists b|discriminate].
  - rewrite orb_true_iff, IH, startswith_spec. split.
    + intros [[t Ht] | (a & b & ->)]; [by exists [], t | by exists (c :: a), b].
    + intros (a & b & Hab). destruct a as [|d a]; [left; by exists b|].
      injection Hab as -> ->. right. eauto.
Qed.

Lemma startswith_app_long (n a b : str) :
  (length n ≤ length a)%nat → startswith n (a ++ b) = startswith n a.
Proof.
  revert a. induction n as [|c n IH]; intros a Hlen; [done|].
  destruct a as [|d a]; simpl in *; [lia|].
  rewrite IH by lia. done.
Qed.

Lemma startswith_short (n a : str) :
  (length a < length n)%nat → startswith n a = false.
Proof.
  revert a. induction n as [|c n IH]; intros a Hlen; simpl in *; [lia|].
  destruct a as [|d a]; [done|]. simpl in Hlen.
  rewrite IH by lia. apply andb_false_r.
Qed.

Lemma startswith_not_prefix (n a b : str) :
  (length a < length n)%nat → startswith a n = false →
  startswith n (a ++ b) = false.
Proof.
  revert n. induction a as [|d a IH]; intros n Hlen Hpre; [done|].
  destruct n as [|c n]; simpl in *; [lia|].
  destruct (N.eqb_spec c d) as [-> | Hne]; [|done].
  rewrite N.eqb_refl in Hpre. simpl in *. apply IH; [lia | done].
Qed.

(** An occurrence of the needle cannot straddle a border-free join. *)
Lemma count_sub_app (n a b : str) :
  border_free n a = true →
  count_sub n (a ++ b) = (count_sub n a + count_sub n b)%nat.
Proof.
  induction a as [|d a IH]; intros Hbf; [done|].
  cbn [border_free] in Hbf. apply andb_true_iff in Hbf as [Hhere Hbf].
  change ((d :: a) ++ b) with (d :: (a ++ b)).
  cbn [count_sub]. rewrite (IH Hbf).
  change (d :: (a ++ b)) with ((d :: a) ++ b).
  assert (Hsw : startswith n ((d :: a) ++ b) = startswith n (d :: a)).
  { apply orb_true_iff in Hhere as [Hlong | Hnot].
    - apply startswith_app_long. by apply bool_decide_eq_true in Hlong.
    - apply negb_true_iff in Hnot.
      destruct (decide (length n ≤ length (d :: a))%nat) as [Hle | Hgt].
      + by apply startswith_app_long.
      + rewrite startswith_not_prefix by (done || lia).
        symmetry. apply startswith_short. lia. }
  rewrite Hsw. lia.
Qed.

(** A string without the first character of the needle holds no occurrence
    and no beginning of one. *)
Lemma border_free_no_head (c : N) (n a : str) :
  c ∉ a → border_free (c :: n) a = true.
Proof.
  induction a as [|d a IH]; intros Hc; [done|].
  apply not_elem_of_cons in Hc as [Hcd Hc].
  cbn [border_free startswith]. rewrite (IH Hc), andb_true_r.
  apply orb_true_iff. right. apply negb_true_iff.
  destruct (N.eqb_spec d c); [congruence | done].
Qed.

Lemma count_sub_no_head (c : N) (n a : str) :
  c ∉ a → count_sub (c :: n) a = 0%nat.
Proof.
  induction a as [|d a IH]; intros Hc; [done|].
  apply not_elem_of_cons in Hc as [Hcd Hc].
  cbn [count_sub startswith]. rewrite (IH Hc).
  destruct (N.eqb_spec c d); [congruence | done].
Qed.

Lemma count_sub_skip (c : N) (n a b : str) :
  c ∉ a → count_sub (c :: n) (a ++ b) = count_sub (c :: n) b.
Proof.
  intros Hc. rewrite count_sub_app by by apply border_free_no_head.
  by rewrite count_sub_no_head.
Qed.

(** A character that the needle does not hold separates the occurrences. *)
Lemma startswith_sep (n a b : str) (z : N) :
  z ∉ n → startswith n (a ++ z :: b) = startswith n a.
Proof.
  revert a. induction n as [|c n IH]; intros a Hz; [done|].
  apply not_elem_of_cons in Hz as [Hzc Hz].
  destruct a as [|d a]; simpl.
  - destruct (N.eqb_spec c z); [congruence | done].
  - by rewrite IH.
Qed.

Lemma count_sub_sep (n a b : str) (z : N) :
  z ∉ n → n ≠ [] →
  count_sub n (a ++ z :: b) = (count_sub n a + count_sub n b)%nat.
Proof.
  intros Hz Hn. induction a as [|d a IH].
  - simpl. destruct n as [|c n]; [done|].
    apply not_elem_of_cons in Hz as [Hzc Hz]. simpl.
    destruct (N.eqb_spec c z); [congruence | done].
  - change ((d :: a) ++ z :: b) with (d :: (a ++ z :: b)).
    cbn [count_sub]. rewrite IH.
    change (d :: (a ++ z :: b)) with ((d :: a) ++ z :: b).
    rewrite startswith_sep by done. lia.
Qed.

Lemma count_sub_join (n : str) (pieces : list str) :
  10 ∉ n → n ≠ [] →
  count_sub n (join newline pieces) = sum_list (count_sub n <$> pieces).
Proof.
  intros Hz Hn. induction pieces as [|x [|y pieces] IH]; [done| |].
  - simpl. lia.
  - change (join newline (x :: y :: pieces))
      with (x ++ 10 :: join newline (y :: pieces)).
    rewrite count_sub_sep by done. rewrite IH. done.
Qed.

(** [escape] leaves no [<] behind. *)
Lemma replace1_removes (c : N) (new s : str) :
  c ∉ new → c ∉ replace1 c new s.
Proof.
  intros Hnew. unfold replace1. rewrite list_elem_of_bind.
  intros (x & Hin & _). destruct (x =? c) eqn:Hx; [done|].
  apply list_elem_of_singleton in Hin. subst x. by rewrite N.eqb_refl in Hx.
Qed.

Lemma replace1_keeps_out (c old : N) (new s : str) :
  c ∉ new → c ∉ s → c ∉ replace1 old new s.
Proof.
  intros Hnew Hs. unfold replace1. rewrite list_elem_of_bind.
  intros (x & Hin & Hx). destruct (x =? old); [done|].
  apply list_elem_of_singleton in Hin. by subst x.
Qed.

Lemma escape_no_lt (s : str) : 60 ∉ escape s.
Proof.
  unfold escape. cbv zeta.
  do 3 (apply replace1_keeps_out; [by_compute|]).
  apply replace1_removes. by_compute.
Qed.

Lemma count_sub_escape (n s b : str) :
  count_sub (60 :: n) (escape s ++ b) = count_sub (60 :: n) b.
Proof. apply count_sub_skip, escape_no_lt. Qed.

(** ** Section Clipper *)

Section Clipper_facts.
Context `{Unicode}.

Lemma contains_ci_refl (m : str) : contains_ci m m = true.
Proof. apply contains_refl. Qed.

Lemma line_hits_true (ms : list str) (line : str) :
  line_hits ms line = true ↔ ∃ m, m ∈ ms ∧ contains_ci m line = true.
Proof.
  unfold line_hits. rewrite existsb_exists.
  setoid_rewrite <- list_elem_of_In. done.
Qed.

Lemma line_hits_false (ms : list str) (line : str) :
  line_hits ms line = false ↔ ∀ m, m ∈ ms → contains_ci m line = false.
Proof.
  rewrite <- not_true_iff_false, line_hits_true. split.
  - intros Hn m Hm. apply not_true_iff_false. intros Hc. apply Hn. eauto.
  - intros Hall (m & Hm & Hc). rewrite (Hall m Hm) in Hc. discriminate.
Qed.

(** The loop stops at the first line that holds a marker. *)
Lemma cut_loop_hit (ms : list str) (paras pre post : list str) (line : str) (i : nat) :
  Forall (λ l, line_hits ms l = false) pre →
  line_hits ms line = true →
  cut_loop ms paras i (pre ++ line :: post) = take (i + length pre) paras.
Proof.
  intros Hpre Hline. revert i.
  induction Hpre as [|l pre Hl _ IH]; intros i; simpl.
  - rewrite Hline. by rewrite Nat.add_0_r.
  - rewrite Hl, IH. f_equal. lia.
Qed.

Lemma cut_loop_miss (ms : list str) (paras rest : list str) (i : nat) :
  Forall (λ l, line_hits ms l = false) rest →
  cut_loop ms paras i rest = paras.
Proof.
  intros Hrest. revert i.
  induction Hrest as [|l rest Hl _ IH]; intros i; simpl; [done|].
  by rewrite Hl, IH.
Qed.

(** Every list has a first line that holds a marker, or none. *)
Lemma first_hit (ms : list str) (paras : list str) :
  Forall (λ l, line_hits ms l = false) paras
  ∨ ∃ pre line post, paras = pre ++ line :: post
      ∧ Forall (λ l, line_hits ms l = false) pre ∧ line_hits ms line = true.
Proof.
  induction paras as [|l paras IH]; [by left|].
  destruct (line_hits ms l) eqn:Hl.
  - right. by exists [], l, paras.
  - destruct IH as [IH | (pre & line & post & -> & Hpre & Hline)].
    + left. by constructor.
    + right. exists (l :: pre), line, post. split_and!; [done| by constructor | done].
Qed.

Lemma cut_section_hit (ms : list str) (pre post : list str) (line : str) :
  Forall (λ l, line_hits ms l = false) pre →
  line_hits ms line = true →
  cut_section (pre ++ line :: post) (Some ms) = pre.
Proof.
  intros Hpre Hline. unfold cut_section.
  destruct ms as [|m ms]; [done|].
  rewrite cut_loop_hit by done. simpl. by rewrite take_app_length.
Qed.

Lemma cut_section_miss (ms : list str) (paras : list str) :
  Forall (λ l, line_hits ms l = false) paras →
  cut_section paras (Some ms) = paras.
Proof.
  intros Hall. unfold cut_section. destruct ms; [done|]. by apply cut_loop_miss.
Qed.

(** C6. With no marker list, an empty one, or no paragraph that holds a
    marker, [cut_section] returns the paragraphs unchanged; otherwise it
    returns the paragraphs before the first one that holds some marker as a
    case-insensitive substring, whichever marker that is. *)
Theorem cut_section_first_match (paras : list str) (end_markers : option (list str)) :
  (end_markers = None ∨ end_markers = Some []
   ∨ (∃ ms, end_markers = Some ms
        ∧ ∀ line m, line ∈ paras → m ∈ ms → contains_ci m line = false) →
   cut_section paras end_markers = paras)
  ∧ (∀ ms line m,
       end_markers = Some ms → line ∈ paras → m ∈ ms → contains_ci m line = true →
       ∃ pre first post,
         paras = pre ++ first :: post
         ∧ (∀ l m', l ∈ pre → m' ∈ ms → contains_ci m' l = false)
         ∧ (∃ m', m' ∈ ms ∧ contains_ci m' first = true)
         ∧ cut_section paras end_markers = pre)
  ∧ (∀ ms pre first post m,
       end_markers = Some ms →
       paras = pre ++ first :: post →
       (∀ l m', l ∈ pre → m' ∈ ms → contains_ci m' l = false) →
       m ∈ ms → contains_ci m first = true →
       cut_section paras end_markers = pre).
Proof.
  split_and!.
  - intros [-> | [-> | (ms & -> & Hnone)]]; [done..|].
    apply cut_section_miss, Forall_forall. intros l Hl.
    apply line_hits_false. intros m Hm. by apply Hnone.
  - intros ms line m -> Hline Hm Hc.
    destruct (first_hit ms paras) as [Hall | (pre & first & post & -> & Hpre & Hfirst)].
    + rewrite Forall_forall in Hall. specialize (Hall line Hline).
      rewrite line_hits_false in Hall. rewrite (Hall m Hm) in Hc. discriminate.
    + exists pre, first, post. split_and!; [done| | |].
      * intros l m' Hl Hm'. rewrite Forall_forall in Hpre.
        specialize (Hpre l Hl). rewrite line_hits_false in Hpre. by apply Hpre.
      * by apply line_hits_true.
      * by apply cut_section_hit.
  - intros ms pre first post m -> -> Hpre Hm Hfirst.
    apply cut_section_hit.
    + apply Forall_forall. intros l Hl. apply line_hits_false. intros m' Hm'.
      by apply Hpre.
    + apply line_hits_true. eauto.
Qed.

(** C7, as amended. With a marker equal to the text of paragraph [i],
    [cut_section] returns the paragraphs [[0, j)] for the first index [j]
    whose paragraph holds some marker, and [j <= i]; the result is the
    paragraphs [[0, i)] when no paragraph before [i] holds a marker. *)
Theorem cut_section_exact_marker (paras : list str) (i : nat) (p : str) (ms : list str) :
  paras !! i = Some p → p ∈ ms →
  (∃ j first, (j ≤ i)%nat ∧ paras !! j = Some first
     ∧ line_hits ms first = true
     ∧ (∀ k l, (k < j)%nat → paras !! k = Some l → line_hits ms l = false)
     ∧ cut_section paras (Some ms) = take j paras)
  ∧ ((∀ k l, (k < i)%nat → paras !! k = Some l → line_hits ms l = false) →
     cut_section paras (Some ms) = take i paras).
Proof.
  intros Hi Hp.
  assert (Hhit : line_hits ms p = true).
  { apply line_hits_true. exists p. split; [done | apply contains_ci_refl]. }
  destruct (first_hit ms paras) as [Hall | (pre & first & post & -> & Hpre & Hfirst)].
  { rewrite Forall_forall in Hall. apply list_elem_of_lookup_2 in Hi.
    rewrite (Hall p Hi) in Hhit. discriminate. }
  assert (Hle : (length pre ≤ i)%nat).
  { destruct (decide (i < length pre)%nat) as [Hlt|]; [|lia].
    rewrite lookup_app_l in Hi by done. apply list_elem_of_lookup_2 in Hi.
    rewrite Forall_forall in Hpre. rewrite (Hpre p Hi) in Hhit. discriminate. }
  rewrite cut_section_hit by done. split.
  - exists (length pre), first. split_and!; [done| | done | |].
    + by rewrite list_lookup_middle.
    + intros k l Hk Hl. rewrite lookup_app_l in Hl by done.
      rewrite Forall_forall in Hpre. eapply Hpre, list_elem_of_lookup_2, Hl.
    + by rewrite take_app_length.
  - intros Hbefore.
    destruct (decide (length pre = i)) as [<- | Hne]; [by rewrite take_app_length|].
    assert (Hlt : (length pre < i)%nat) by lia.
    rewrite (Hbefore (length pre) first Hlt) in Hfirst; [discriminate|].
    by rewrite list_lookup_middle.
Qed.

End Clipper_facts.

(** ** Line Classifier *)

Section Classifier_facts.
Context `{Unicode}.

(** [cls+] takes a whole run of the class when the rest matches after it. *)
Lemma plus_run (cls : N → bool) (k : option N → str → bool) (run : str) (c : N) (s : str) :
  Forall (λ x, cls x = true) run → cls c = true →
  k (Some c) s = true →
  Re.plus cls k (run ++ c :: s) = true.
Proof.
  intros Hrun Hc Hk. induction Hrun as [|x run Hx _ IH]; simpl.
  - by rewrite Hc, Hk, orb_true_r.
  - by rewrite Hx, IH.
Qed.

Lemma match_alt (alts : list str) (pat : list Re.atom) (a : str) (prev : option N) (s : str) :
  a ∈ alts →
  Re.match_here pat (Re.prev_after a prev) s = true →
  Re.match_here (Re.Alt alts :: pat) prev (a ++ s) = true.
Proof.
  intros Ha Hm. cbn [Re.match_here]. apply existsb_exists. exists a. split.
  - by apply list_elem_of_In.
  - by rewrite startswith_app, drop_app_length, Hm.
Qed.

(** A non-empty string is a run and its last character. *)
Lemma snoc_view (s : str) : s ≠ [] → ∃ run c, s = run ++ [c].
Proof.
  intros Hs. induction s as [|c run _] using rev_ind; [done | eauto].
Qed.

(** C4, as amended. A line that begins with [MODULE] or [Module], in one
    of these two casings, then white space, then decimal digits that end at
    a word boundary (end of line, or a character that is no letter, digit or
    underscore) is classified as a major heading, whatever follows. *)
Theorem classify_line_module (line w ws ds rest : str) :
  w = lit "MODULE" ∨ w = lit "Module" →
  ws ≠ [] → Forall (λ c, isspace c = true) ws →
  ds ≠ [] → Forall (λ c, isdecimal c = true) ds →
  Re.isword_opt (head rest) = false →
  line = w ++ ws ++ ds ++ rest →
  classify_line line = Kh2.
Proof.
  intros Hw Hws Hsp Hds Hdig Hrest ->.
  destruct (snoc_view ws Hws) as (ws' & sp & ->).
  destruct (snoc_view ds Hds) as (ds' & d & ->).
  apply Forall_app in Hsp as [Hsp' Hsp]. apply Forall_app in Hdig as [Hdig' Hdig].
  apply Forall_inv in Hsp, Hdig.
  assert (Hm : Re.re_match re_module (w ++ (ws' ++ [sp]) ++ (ds' ++ [d]) ++ rest) = true).
  { unfold Re.re_match, re_module. apply match_alt.
    { apply list_elem_of_In. simpl. destruct Hw as [-> | ->]; tauto. }
    cbn [Re.match_here]. rewrite <- !app_assoc. simpl.
    apply plus_run; [done..|]. apply plus_run; [done..|].
    unfold Re.at_boundary, Re.isword_opt at 1, Re.isword.
    rewrite (isdecimal_isalnum _ Hdig), Hrest. done. }
  unfold classify_line. by rewrite Hm.
Qed.

(** A line of kind [Kcore] begins with the label, so the split of
    [core_payload] has its second part. *)
Lemma core_payload_defined (line : str) :
  classify_line line = Kcore →
  ∃ rest, split1 (lit "Core Principle:") line = [[]; rest].
Proof.
  unfold classify_line.
  destruct (Re.re_match re_module line); [done|].
  destruct (Re.re_match re_summary line); [done|].
  destruct (Re.re_match re_core line) eqn:Hc.
  2:{ by destruct (existsb (str_eqb (strip line)) subsection_titles). }
  intros _. unfold Re.re_match, re_core in Hc. cbn [Re.match_here existsb] in Hc.
  rewrite orb_false_r in Hc. apply andb_true_iff in Hc as [Hs _].
  unfold split1. destruct line as [|c l]; [done|].
  cbn [split1_aux]. rewrite Hs. eauto.
Qed.

End Classifier_facts.

(** ** Content Renderer: one line at a time *)

Lemma endswith_char (c : N) (s : str) : endswith [c] s = true ↔ last s = Some c.
Proof.
  unfold endswith. induction s as [|x s _] using rev_ind; simpl; [done|].
  rewrite rev_app_distr, last_snoc. simpl.
  rewrite andb_true_r, N.eqb_eq. split; [by intros -> | by intros [= ->]].
Qed.

Lemma looks_bulleted_spec (line : str) :
  looks_bulleted line = true ↔
  (length line ≤ 110)%nat
  ∧ ∃ c, last line = Some c ∧ ([c] = lit "." ∨ [c] = lit ")" ∨ [c] = lit "—").
Proof.
  unfold looks_bulleted, endswith_any.
  change (lit ".") with [46]. change (lit ")") with [41]. change (lit "—") with [8212].
  rewrite andb_true_iff, bool_decide_eq_true. cbn [existsb].
  rewrite orb_false_r, !orb_true_iff, !endswith_char. split.
  - intros [Hlen [Hc | [Hc | Hc]]]; (split; [done|]); eauto 6.
  - intros [Hlen (c & Hc & [[= ->] | [[= ->] | [= ->]]])]; auto.
Qed.

Section Renderer_facts.
Context `{Unicode}.

Lemma render_lines_snoc (pre : list str) (raw : str) :
  render_lines (pre ++ [raw]) = render_line (render_lines pre) raw.
Proof. unfold render_lines. by rewrite foldl_app. Qed.

Lemma prev_kind_render_line (st : render_state) (raw : str) :
  prev_kind (render_line st raw) = Some (classify_line (strip raw)).
Proof. done. Qed.

(** [prev_kind] is the kind of the line just before, if there is one. *)
Lemma prev_kind_render_lines (pre : list str) :
  prev_kind (render_lines pre) = (λ r, classify_line (strip r)) <$> last pre.
Proof.
  induction pre as [|raw pre _] using rev_ind; [done|].
  by rewrite render_lines_snoc, prev_kind_render_line, last_snoc.
Qed.

(** What [render_line] does on a line of kind [Kp]. *)
Lemma render_line_p (st : render_state) (raw : str) :
  classify_line (strip raw) = Kp →
  render_line st raw =
    if bool_decide (prev_kind st = Some Kh3) && looks_bulleted (strip raw)
    then {| out := out st ++ (if in_ul st then [] else [ul_open]) ++ [li_piece (strip raw)];
            in_ul := true; prev_kind := Some Kp |}
    else {| out := out st ++ (if in_ul st then [ul_close] else []) ++ [p_piece (strip raw)];
            in_ul := false; prev_kind := Some Kp |}.
Proof.
  intros Hk. unfold render_line. rewrite Hk. simpl.
  destruct st as [o [] pk]; simpl;
    destruct (bool_decide (pk = Some Kh3) && looks_bulleted (strip raw));
    unfold set_prev_kind, emit, close_ul, set_in_ul; simpl;
    by rewrite <- ?app_assoc.
Qed.

(** C2. A line of kind paragraph-candidate is emitted as a list item if
    and only if the line just before was a minor heading and the trimmed
    line has at most 110 characters and ends with a full stop, a closing
    parenthesis or an em-dash; the list container is opened then unless it
    is open already. Otherwise an open list is closed and the line is
    emitted as a plain paragraph. *)
Theorem render_paragraph_candidate (pre : list str) (raw : str) :
  let line := strip raw in
  let st := render_lines pre in
  let st' := render_lines (pre ++ [raw]) in
  let after_minor_heading :=
    ∃ r, last pre = Some r ∧ classify_line (strip r) = Kh3 in
  let bullet_shaped :=
    (length line ≤ 110)%nat
    ∧ ∃ c, last line = Some c ∧ ([c] = lit "." ∨ [c] = lit ")" ∨ [c] = lit "—") in
  classify_line line = Kp →
  (after_minor_heading ∧ bullet_shaped →
     out st' = out st ++ (if in_ul st then [] else [ul_open]) ++ [li_piece line]
     ∧ in_ul st' = true)
  ∧ (¬ (after_minor_heading ∧ bullet_shaped) →
     out st' = out st ++ (if in_ul st then [ul_close] else []) ++ [p_piece line]
     ∧ in_ul st' = false).
Proof.
  intros line st st' after_minor_heading bullet_shaped Hk.
  assert (Hctx : bool_decide (prev_kind st = Some Kh3) = true ↔ after_minor_heading).
  { rewrite bool_decide_eq_true. unfold st, after_minor_heading.
    rewrite prev_kind_render_lines. destruct (last pre) as [r|]; simpl.
    - split; [intros [= Hr]; eauto | intros (r' & [= <-] & ->); done].
    - split; [done | intros (r' & [=] & _)]. }
  assert (Hst' : st' = render_line st raw) by apply render_lines_snoc.
  rewrite Hst', (render_line_p st raw Hk). fold line.
  destruct (bool_decide (prev_kind st = Some Kh3) && looks_bulleted line) eqn:Hb.
  - split; [done|]. intros Hn. exfalso. apply Hn.
    apply andb_true_iff in Hb as [Hb1 Hb2].
    split; [by apply Hctx | by apply looks_bulleted_spec].
  - split; [|done]. intros [Ha Hs]. exfalso.
    apply Hctx in Ha. apply looks_bulleted_spec in Hs.
    rewrite Ha, Hs in Hb. discriminate.
Qed.

End Renderer_facts.

(** ** Content Renderer: the shape of the output *)

Lemma plain_not_ul_open (piece : str) : plain_piece piece → piece ≠ ul_open.
Proof.
  intros [line|line|line|line] Heq; apply (f_equal (take 2)) in Heq;
    vm_compute in Heq; discriminate.
Qed.

Lemma li_not_ul_open (line : str) : li_piece line ≠ ul_open.
Proof. intros Heq. apply (f_equal (take 2)) in Heq. vm_compute in Heq. discriminate. Qed.

Lemma ul_close_not_ul_open : ul_close ≠ ul_open.
Proof. intros Heq. vm_compute in Heq. discriminate. Qed.

Lemma rendered_app (a b : list str) : rendered a → rendered b → rendered (a ++ b).
Proof.
  intros Ha Hb. induction Ha as [|piece o Hp _ IH|line o _ IH]; simpl.
  - done.
  - by constructor.
  - by constructor.
Qed.

Lemma rendered_snoc (o : list str) (piece : str) :
  rendered o → plain_piece piece → rendered (o ++ [piece]).
Proof.
  intros Ho Hp. apply rendered_app; [done|].
  apply rendered_plain; [done | apply rendered_nil].
Qed.

Lemma rendered_snoc_list (o : list str) (line : str) :
  rendered o → rendered ((o ++ [ul_open; li_piece line]) ++ [ul_close]).
Proof.
  intros Ho. rewrite <- app_assoc. apply rendered_app; [done|].
  apply rendered_list, rendered_nil.
Qed.

Lemma cons_eq_inv {A} (x y : A) (l k : list A) : x :: l = y :: k → x = y ∧ l = k.
Proof. by intros [= -> ->]. Qed.

(** In a rendered piece list an opened list holds one item and is closed. *)
Lemma rendered_ul_open (o pre post : list str) :
  rendered o → o = pre ++ ul_open :: post →
  ∃ line post', post = li_piece line :: ul_close :: post' ∧ rendered post'.
Proof.
  intros Ho. revert pre. induction Ho as [|piece o Hp Ho IH|line o Ho IH]; intros pre Heq.
  - by destruct pre.
  - destruct pre as [|x pre]; apply cons_eq_inv in Heq as [Hx Heq].
    + subst piece. by apply plain_not_ul_open in Hp.
    + by eapply IH.
  - destruct pre as [|x pre]; apply cons_eq_inv in Heq as [_ Heq].
    { subst post. eauto. }
    destruct pre as [|y pre]; apply cons_eq_inv in Heq as [Hy Heq].
    { by apply li_not_ul_open in Hy. }
    destruct pre as [|z pre]; apply cons_eq_inv in Heq as [Hz Heq].
    { by apply ul_close_not_ul_open in Hz. }
    by eapply IH.
Qed.

Lemma lists_in_plain (piece : str) (o : list str) :
  plain_piece piece → lists_in (piece :: o) = lists_in o.
Proof.
  intros Hp. unfold lists_in. rewrite filter_cons_False; [done|].
  by apply plain_not_ul_open.
Qed.

Lemma lists_in_list (line : str) (o : list str) :
  lists_in (ul_open :: li_piece line :: ul_close :: o) = S (lists_in o).
Proof.
  unfold lists_in. rewrite filter_cons_True by done.
  rewrite filter_cons_False by apply li_not_ul_open.
  rewrite filter_cons_False by apply ul_close_not_ul_open. done.
Qed.

(** Occurrences of a markup needle in a rendered fragment: none in the
    plain pieces, [c] in each list. *)
Lemma count_sub_rendered (n : str) (c : nat) (o : list str) :
  10 ∉ n → n ≠ [] →
  (∀ piece, plain_piece piece → count_sub n piece = 0%nat) →
  (∀ line, (count_sub n ul_open + count_sub n (li_piece line)
            + count_sub n ul_close)%nat = c) →
  rendered o →
  count_sub n (join newline o) = (c * lists_in o)%nat.
Proof.
  intros Hnl Hn Hplain Hlist Ho. rewrite count_sub_join by done.
  induction Ho as [|piece o Hp _ IH|line o _ IH].
  - unfold lists_in. simpl. lia.
  - rewrite lists_in_plain by done. rewrite fmap_cons. cbn [sum_list].
    rewrite (Hplain _ Hp), IH. done.
  - rewrite lists_in_list. rewrite !fmap_cons. cbn [sum_list].
    rewrite IH, Nat.mul_succ_r. specialize (Hlist line). unfold id. lia.
Qed.

Ltac count_markup :=
  unfold h2_piece, h3_piece, p_piece, core_piece, li_piece;
  repeat first
    [ rewrite count_sub_escape
    | rewrite count_sub_app by (vm_compute; reflexivity) ];
  vm_compute; reflexivity.

Lemma count_ul_open_plain (piece : str) :
  plain_piece piece → count_sub (lit "<ul") piece = 0%nat.
Proof.
  change (lit "<ul") with (60 :: lit "ul").
  intros [line|line|line|line]; count_markup.
Qed.

Lemma count_ul_open_list (line : str) :
  (count_sub (lit "<ul") ul_open + count_sub (lit "<ul") (li_piece line)
   + count_sub (lit "<ul") ul_close)%nat = 1%nat.
Proof.
  change (lit "<ul") with (60 :: lit "ul").
  replace (count_sub (60 :: lit "ul") (li_piece line)) with 0%nat by (symmetry; count_markup).
  vm_compute. reflexivity.
Qed.

Lemma count_ul_close_plain (piece : str) :
  plain_piece piece → count_sub (lit "</ul>") piece = 0%nat.
Proof.
  change (lit "</ul>") with (60 :: lit "/ul>").
  intros [line|line|line|line]; count_markup.
Qed.

Lemma count_ul_close_list (line : str) :
  (count_sub (lit "</ul>") ul_open + count_sub (lit "</ul>") (li_piece line)
   + count_sub (lit "</ul>") ul_close)%nat = 1%nat.
Proof.
  change (lit "</ul>") with (60 :: lit "/ul>").
  replace (count_sub (60 :: lit "/ul>") (li_piece line)) with 0%nat by (symmetry; count_markup).
  vm_compute. reflexivity.
Qed.

Lemma count_li_plain (piece : str) :
  plain_piece piece → count_sub (lit "<li>") piece = 0%nat.
Proof.
  change (lit "<li>") with (60 :: lit "li>").
  intros [line|line|line|line]; count_markup.
Qed.

Lemma count_li_list (line : str) :
  (count_sub (lit "<li>") ul_open + count_sub (lit "<li>") (li_piece line)
   + count_sub (lit "<li>") ul_close)%nat = 1%nat.
Proof.
  change (lit "<li>") with (60 :: lit "li>").
  replace (count_sub (60 :: lit "li>") (li_piece line)) with 1%nat by (symmetry; count_markup).
  vm_compute. reflexivity.
Qed.

Section Renderer_shape.
Context `{Unicode}.

Lemma render_line_heading (st : render_state) (raw : str) :
  render_line st raw =
    match classify_line (strip raw) with
    | Kh2 => set_prev_kind Kh2 (emit (h2_piece (strip raw)) (close_ul st))
    | Kh3 => set_prev_kind Kh3 (emit (h3_piece (strip raw)) (close_ul st))
    | Kcore => set_prev_kind Kcore (emit (core_piece (strip raw)) (close_ul st))
    | Kp => render_line st raw
    end.
Proof. unfold render_line. by destruct (classify_line (strip raw)). Qed.

Lemma close_ul_rendered (st : render_state) :
  render_inv st → rendered (out (close_ul st)) ∧ in_ul (close_ul st) = false.
Proof.
  unfold render_inv, close_ul. destruct (in_ul st) eqn:Hin; [|done].
  intros (o & line & Ho & Hr & _). simpl. rewrite Ho. split; [|done].
  by apply rendered_snoc_list.
Qed.

Lemma render_inv_emit_closed (st : render_state) (piece : str) (k : kind) :
  render_inv st → plain_piece piece →
  render_inv (set_prev_kind k (emit piece (close_ul st))).
Proof.
  intros Hinv Hp. destruct (close_ul_rendered st Hinv) as [Hr Hin].
  unfold render_inv. simpl. rewrite Hin. by apply rendered_snoc.
Qed.

Lemma paragraph_state (st : render_state) (piece : str) :
  {| out := out st ++ (if in_ul st then [ul_close] else []) ++ [piece];
     in_ul := false; prev_kind := Some Kp |}
  = set_prev_kind Kp (emit piece (close_ul st)).
Proof.
  destruct st as [o [] pk]; unfold set_prev_kind, emit, close_ul, set_in_ul; simpl;
    by rewrite <- ?app_assoc.
Qed.

Lemma render_line_inv (st : render_state) (raw : str) :
  render_inv st → render_inv (render_line st raw).
Proof.
  intros Hinv. destruct (classify_line (strip raw)) eqn:Hk.
  - rewrite render_line_heading, Hk. apply render_inv_emit_closed, plain_h2. exact Hinv.
  - rewrite render_line_heading, Hk. apply render_inv_emit_closed, plain_h3. exact Hinv.
  - rewrite render_line_heading, Hk. apply render_inv_emit_closed, plain_core. exact Hinv.
  - rewrite (render_line_p st raw Hk).
    destruct (bool_decide (prev_kind st = Some Kh3) && looks_bulleted (strip raw)) eqn:Hb.
    + apply andb_true_iff in Hb as [Hctx _]. apply bool_decide_eq_true in Hctx.
      unfold render_inv in *. simpl. destruct (in_ul st).
      * destruct Hinv as (o & line & _ & _ & Hne). done.
      * exists (out st), (strip raw). done.
    + rewrite paragraph_state. apply render_inv_emit_closed, plain_p. exact Hinv.
Qed.

Lemma render_lines_inv (paras : list str) : render_inv (render_lines paras).
Proof.
  induction paras as [|raw paras IH] using rev_ind.
  - unfold render_inv. simpl. constructor.
  - rewrite render_lines_snoc. by apply render_line_inv.
Qed.

(** The piece list of [build_content_html] is made of plain pieces and
    closed lists of one item. *)
Lemma content_pieces_rendered (paras : list str) : rendered (content_pieces paras).
Proof. apply close_ul_rendered, render_lines_inv. Qed.

Lemma count_ul_open (paras : list str) :
  count_sub (lit "<ul") (build_content_html paras) = lists_in (content_pieces paras).
Proof.
  unfold build_content_html.
  rewrite (count_sub_rendered (lit "<ul") 1);
    [lia | by_compute | done | apply count_ul_open_plain | apply count_ul_open_list
    | apply content_pieces_rendered].
Qed.

(** C3. The fragment holds as many ["<ul"] as ["</ul>"]: the list
    containers opened are all closed, the last one at the end of input. *)
Theorem build_content_html_balanced (paras : list str) :
  count_sub (lit "<ul") (build_content_html paras)
  = count_sub (lit "</ul>") (build_content_html paras).
Proof.
  rewrite count_ul_open. unfold build_content_html.
  rewrite (count_sub_rendered (lit "</ul>") 1);
    [lia | by_compute | done | apply count_ul_close_plain | apply count_ul_close_list
    | apply content_pieces_rendered].
Qed.

(** C10. Every list container that the renderer opens holds exactly one
    item: in the piece list the opening of a list is followed by one list
    item and then the closing of the list, and the fragment holds as many
    ["<li>"] as ["<ul"]. *)
Theorem list_holds_one_item (paras : list str) :
  (∀ pre post, content_pieces paras = pre ++ ul_open :: post →
     ∃ line post', post = li_piece line :: ul_close :: post')
  ∧ count_sub (lit "<li>") (build_content_html paras)
    = count_sub (lit "<ul") (build_content_html paras).
Proof.
  split.
  - intros pre post Heq.
    destruct (rendered_ul_open _ pre post (content_pieces_rendered paras) Heq)
      as (line & post' & -> & _).
    eauto.
  - rewrite count_ul_open. unfold build_content_html.
    rewrite (count_sub_rendered (lit "<li>") 1);
      [lia | by_compute | done | apply count_li_plain | apply count_li_list
      | apply content_pieces_rendered].
Qed.

End Renderer_shape.

(** ** Page Assembler *)

Lemma contains_inside (needle a x b : str) :
  contains needle x = true → contains needle (a ++ x ++ b) = true.
Proof.
  rewrite !contains_spec. intros (a' & b' & ->).
  exists (a ++ a'), (b' ++ b). by rewrite <- !app_assoc.
Qed.

Lemma contains_join (needle sep x : str) (pieces : list str) :
  x ∈ pieces → contains needle x = true → contains needle (join sep pieces) = true.
Proof.
  intros Hx Hc. induction pieces as [|y [|z pieces] IH].
  - by apply elem_of_nil in Hx.
  - apply list_elem_of_singleton in Hx. by subst y.
  - change (join sep (y :: z :: pieces)) with (y ++ sep ++ join sep (z :: pieces)).
    apply elem_of_cons in Hx as [-> | Hx].
    + apply (contains_inside needle [] y). done.
    + rewrite app_assoc. rewrite <- (app_nil_r (join sep (z :: pieces))).
      apply contains_inside. by apply IH.
Qed.

Lemma replace1_id (old : N) (new s : str) : old ∉ s → replace1 old new s = s.
Proof.
  unfold replace1. induction s as [|c s IH]; intros Hs; [done|].
  apply not_elem_of_cons in Hs as [Hc Hs]. rewrite bind_cons, (IH Hs).
  destruct (N.eqb_spec c old); [congruence | done].
Qed.

(** A name without markup characters is written as it is. *)
Lemma escape_plain (s : str) : (∀ c, c ∈ s → c ∉ markup_chars) → escape s = s.
Proof.
  intros Hs. unfold escape. cbv zeta.
  assert (Hout : ∀ c, c ∈ markup_chars → c ∉ s) by (intros c Hc Hin; by apply (Hs c)).
  rewrite (replace1_id 38) by (apply Hout; by_compute).
  rewrite (replace1_id 60) by (apply Hout; by_compute).
  rewrite (replace1_id 62) by (apply Hout; by_compute).
  rewrite (replace1_id dquote) by (apply Hout; by_compute).
  rewrite (replace1_id 39) by (apply Hout; by_compute).
  done.
Qed.

Lemma figure_src (platform_key name : str) :
  contains (tpl "<img src=`../images/" ++ platform_key ++ lit "/" ++ escape name ++ tpl "`")
           (figure platform_key name) = true.
Proof.
  apply contains_spec.
  exists (tpl "<figure class=`img`>"),
         (tpl " alt=`" ++ escape name ++ tpl "`><figcaption>"
          ++ escape name ++ lit "</figcaption></figure>").
  unfold figure.
  change (tpl "<figure class=`img`><img src=`../images/")
    with (tpl "<figure class=`img`>" ++ tpl "<img src=`../images/").
  change (tpl "` alt=`") with (tpl "`" ++ tpl " alt=`").
  by rewrite <- !app_assoc.
Qed.

Lemma page_regroup {A} (x1 x2 x3 x4 x5 x6 x7 x8 t4 gb imgs ga t5 : list A) :
  x1 ++ x2 ++ x3 ++ x4 ++ x5 ++ x6 ++ x7 ++ x8 ++ t4 ++ (gb ++ imgs ++ ga) ++ t5
  = (x1 ++ x2 ++ x3 ++ x4 ++ x5 ++ x6 ++ x7 ++ x8 ++ t4) ++ gb ++ imgs ++ ga ++ t5.
Proof. by rewrite <- !app_assoc. Qed.

Lemma src_regroup {A} (a p im key sl name q b : list A) :
  a ++ ((p ++ im) ++ key ++ sl ++ name ++ q) ++ b
  = (a ++ p) ++ (im ++ key ++ sl ++ name) ++ q ++ b.
Proof. by rewrite <- !app_assoc. Qed.

(** Without images the page holds a gallery marker as often as the content
    does. *)
Lemma count_sub_wrap_page_no_images (marker platform_key title content_html : str) :
  marker ∈ gallery_markers →
  count_sub marker (wrap_page platform_key title content_html [])
  = count_sub marker content_html.
Proof.
  intros Hm. unfold wrap_page, gallery.
  let t := eval vm_compute in (Page.page_before_gallery ++ [] ++ Page.page_after_gallery) in
  change (Page.page_before_gallery ++ [] ++ Page.page_after_gallery) with t.
  unfold gallery_markers in Hm.
  repeat (apply elem_of_cons in Hm as [-> | Hm]);
    [| | | by apply elem_of_nil in Hm];
    (match goal with
     | |- context [count_sub ?n (_ ++ _)] =>
       let v := eval vm_compute in n in change n with v
     end;
     repeat first
       [ rewrite count_sub_escape
       | rewrite count_sub_sep by (by_compute || done)
       | rewrite count_sub_app by (vm_compute; reflexivity) ];
     vm_compute (count_sub _ Page.page_before_title);
     vm_compute (count_sub _ Page.page_before_nav);
     vm_compute (count_sub _ Page.nav);
     vm_compute (count_sub _ Page.page_before_h1);
     vm_compute (count_sub _ Page.page_before_content);
     vm_compute (count_sub _ (_ :: _));
     lia).
Qed.

Ltac compute_needle :=
  match goal with
  | |- context [count_sub ?n _] =>
    let v := eval vm_compute in n in change n with v
  end.

Lemma count_marker_plain (marker piece : str) :
  marker ∈ gallery_markers → plain_piece piece → count_sub marker piece = 0%nat.
Proof.
  intros Hm Hp. unfold gallery_markers in Hm.
  repeat (apply elem_of_cons in Hm as [-> | Hm]);
    [| | | by apply elem_of_nil in Hm];
    compute_needle; destruct Hp; count_markup.
Qed.

Lemma count_marker_list (marker line : str) :
  marker ∈ gallery_markers →
  (count_sub marker ul_open + count_sub marker (li_piece line)
   + count_sub marker ul_close)%nat = 0%nat.
Proof.
  intros Hm. unfold gallery_markers in Hm.
  repeat (apply elem_of_cons in Hm as [-> | Hm]);
    [| | | by apply elem_of_nil in Hm];
    compute_needle;
    match goal with
    | |- context [count_sub ?n (li_piece line)] =>
      replace (count_sub n (li_piece line)) with 0%nat by (symmetry; count_markup)
    end;
    vm_compute; reflexivity.
Qed.

Lemma gallery_marker_line (marker : str) :
  marker ∈ gallery_markers → (10 ∉ marker) ∧ (marker ≠ []).
Proof.
  intros Hm. unfold gallery_markers in Hm.
  repeat (apply elem_of_cons in Hm as [-> | Hm]);
    [| | | by apply elem_of_nil in Hm]; split; by_compute.
Qed.

Section Page_facts.
Context `{Unicode}.

(** The rendered fragment holds no gallery marker. *)
Lemma count_marker_content (marker : str) (paras : list str) :
  marker ∈ gallery_markers → count_sub marker (build_content_html paras) = 0%nat.
Proof.
  intros Hm. unfold build_content_html.
  rewrite (count_sub_rendered marker 0).
  - done.
  - by apply gallery_marker_line.
  - by apply gallery_marker_line.
  - intros piece. by apply count_marker_plain.
  - intros line. by apply count_marker_list.
  - apply content_pieces_rendered.
Qed.

(** C8. Built from an empty list of extracted images, the page holds no
    gallery block: none of the markup that only the gallery carries occurs
    in it. With at least one image, the page holds the gallery block, whose
    images have the source [../images/<key>/<filename>] for every
    extracted filename, the filename written with [escape], that is as it
    stands when it holds no markup character. *)
Theorem wrap_page_gallery (platform_key title : str) (paras extracted_images : list str) :
  let page :=
    wrap_page platform_key title (build_content_html paras) extracted_images in
  (extracted_images = [] →
     ∀ marker, marker ∈ gallery_markers → count_sub marker page = 0%nat)
  ∧ (extracted_images ≠ [] →
     ∃ before imgs after,
       page = before ++ Page.gallery_before ++ imgs ++ Page.gallery_after ++ after
       ∧ ∀ name, name ∈ extracted_images →
           contains (tpl "<img src=`../images/" ++ platform_key ++ lit "/"
                     ++ escape name ++ tpl "`") imgs = true
           ∧ ((∀ c, c ∈ name → c ∉ markup_chars) →
              contains (lit "../images/" ++ platform_key ++ lit "/" ++ name) imgs = true)).
Proof.
  intros page. split.
  - intros -> marker Hm. unfold page.
    rewrite count_sub_wrap_page_no_images by done. by apply count_marker_content.
  - intros Hne.
    exists (Page.page_before_title ++ escape title ++ Page.page_before_nav ++ Page.nav
            ++ Page.page_before_h1 ++ escape title ++ Page.page_before_content
            ++ build_content_html paras ++ Page.page_before_gallery),
           (join newline (figure platform_key <$> extracted_images)),
           Page.page_after_gallery.
    split.
    + unfold page, wrap_page, gallery.
      destruct extracted_images as [|x l]; [exfalso; by apply Hne|].
      cbv zeta. apply page_regroup.
    + intros name Hname.
      assert (Hfig : figure platform_key name ∈ figure platform_key <$> extracted_images)
        by (by apply list_elem_of_fmap_2).
      assert (Hsrc : contains (tpl "<img src=`../images/" ++ platform_key ++ lit "/"
                               ++ escape name ++ tpl "`")
                       (join newline (figure platform_key <$> extracted_images)) = true).
      { eapply contains_join; [exact Hfig | apply figure_src]. }
      split; [exact Hsrc|].
      intros Hplain. rewrite (escape_plain name Hplain) in Hsrc.
      apply contains_spec in Hsrc as (a & b & ->). apply contains_spec.
      exists (a ++ tpl "<img src=`"), (tpl "`" ++ b).
      change (tpl "<img src=`../images/") with (tpl "<img src=`" ++ lit "../images/").
      apply src_regroup.
Qed.

End Page_facts.

(** ** Driver *)

Section Driver_facts.
Context `{Unicode}.

Lemma bind_returned {A B} (m : io A) (f : A → io B) (w w' : world) (a : A) :
  m w = (Returned a, w') → (m ≫= f) w = f a w'.
Proof. intros Hm. unfold mbind, io_bind. by rewrite Hm. Qed.

Lemma bind_raised {A B} (m : io A) (f : A → io B) (w w' : world) (e : exn) :
  m w = (Raised e, w') → (m ≫= f) w = (Raised e, w').
Proof. intros Hm. unfold mbind, io_bind. by rewrite Hm. Qed.

(** [z.read] does not touch the world. *)
Lemma zip_read_pure (entries : list (str * blob)) (name : str) (w : world) :
  zip_read entries name w = ((zip_read entries name w).1, w)
  ∧ ∀ w', (zip_read entries name w').1 = (zip_read entries name w).1.
Proof.
  unfold zip_read. by destruct (last (filter (λ e, e.1 = name) entries)).
Qed.

Lemma fromstring_pure (b : blob) (w : world) :
  fromstring b w = ((fromstring b w).1, w)
  ∧ ∀ w', (fromstring b w').1 = (fromstring b w).1.
Proof. by destruct b. Qed.

(** Reading the paragraphs leaves the world as it is, and its result
    depends on the source file only. *)
Lemma read_docx_paragraphs_frame (docx_path : str) (w w' : world) :
  files w' !! docx_path = files w !! docx_path →
  read_docx_paragraphs docx_path w' = ((read_docx_paragraphs docx_path w).1, w').
Proof.
  intros Hf. unfold read_docx_paragraphs, mbind, io_bind, open_zip. rewrite Hf.
  destruct (files w !! docx_path) as [[entries|body|t|data]|]; try done.
  destruct (zip_read_pure entries (lit "word/document.xml") w) as [Hz Hz'].
  destruct (zip_read_pure entries (lit "word/document.xml") w') as [Hw _].
  rewrite Hz, Hw, Hz'.
  destruct (zip_read entries (lit "word/document.xml") w).1 as [xml|e]; [|done].
  destruct (fromstring_pure xml w) as [Hx Hx'].
  destruct (fromstring_pure xml w') as [Hy _].
  rewrite Hx, Hy, Hx'.
  by destruct (fromstring xml w).1.
Qed.

Lemma read_docx_paragraphs_world (docx_path : str) (w : world) :
  (read_docx_paragraphs docx_path w).2 = w.
Proof. by rewrite (read_docx_paragraphs_frame docx_path w w). Qed.

(** A file that could be read is there. *)
Lemma read_docx_paragraphs_present (docx_path : str) (w : world) (paras : list str) :
  (read_docx_paragraphs docx_path w).1 = Returned paras →
  is_Some (files w !! docx_path).
Proof.
  unfold read_docx_paragraphs, mbind, io_bind, open_zip.
  destruct (files w !! docx_path); [eauto | done].
Qed.

(** The names that the extraction returns depend on the entries only. *)
Lemma extract_loop_value (entries : list (str * blob)) (out_folder : str)
    (media_files extracted : list str) (w w' : world) :
  (extract_loop entries out_folder media_files extracted w').1
  = (extract_loop entries out_folder media_files extracted w).1.
Proof.
  revert extracted w w'. induction media_files as [|f fs IH]; intros extracted w w'; [done|].
  cbn [extract_loop]. unfold mbind, io_bind.
  destruct (zip_read_pure entries f w) as [Hz Hz'].
  destruct (zip_read_pure entries f w') as [Hw _].
  rewrite Hz, Hw, Hz'.
  destruct (zip_read entries f w).1 as [data|e]; [|done].
  unfold write. apply IH.
Qed.

Lemma extract_docx_images_value (docx_path out_folder : str) (w w' : world) :
  files w' !! docx_path = files w !! docx_path →
  (extract_docx_images docx_path out_folder w').1
  = (extract_docx_images docx_path out_folder w).1.
Proof.
  intros Hf. unfold extract_docx_images, mbind, io_bind, mkdir, mret, io_ret, open_zip.
  rewrite Hf. destruct (files w !! docx_path) as [[entries|body|t|data]|]; try done.
  apply extract_loop_value.
Qed.

(** An entry whose source can be read writes its page and returns. *)
Lemma main_entry_writes (key filename : str) (w : world) (paras imgs : list str) :
  (read_docx_paragraphs filename w).1 = Returned paras →
  (extract_docx_images filename (path_join IMG_DIR key) w).1 = Returned imgs →
  let paras' := cut_section paras (END_MARKERS !! key) in
  let title' := match paras' with
                | first :: _ => first
                | [] => title key ++ lit " Platform"
                end in
  (main_entry (key, filename) w).1 = Returned ()
  ∧ files (main_entry (key, filename) w).2 !! path_join OUT_DIR (key ++ lit ".html")
    = Some (Text (wrap_page key title' (build_content_html paras') imgs)).
Proof.
  intros Hread Himgs paras' title'.
  pose proof (read_docx_paragraphs_present _ _ _ Hread) as Hpresent.
  unfold main_entry.
  rewrite (bind_returned _ _ w w true)
    by (unfold path_exists; by rewrite bool_decide_eq_true_2).
  cbn [negb].
  set (w1 := {| files := files w; stdout := stdout w ++ [lit "[READ] " ++ filename] |}).
  rewrite (bind_returned _ _ w w1 ()) by done.
  rewrite (bind_returned _ _ w1 w1 paras)
    by (by rewrite (read_docx_paragraphs_frame filename w w1), Hread).
  fold paras' title'.
  destruct (extract_docx_images filename (path_join IMG_DIR key) w1) as [o w2] eqn:Hex.
  assert (Ho : o = Returned imgs).
  { rewrite <- Himgs, <- (extract_docx_images_value filename _ w w1) by done.
    by rewrite Hex. }
  subst o. rewrite (bind_returned _ _ w1 w2 imgs) by done.
  unfold mbind, io_bind, write, print. simpl. split; [done|].
  apply lookup_insert_eq.
Qed.

(** C9. Two runs of the pipeline on a document entry of the same key that
    extract the same paragraph sequence (hence the same title) and the same
    list of image file names write the same page, whatever else the two
    worlds hold. *)
Theorem main_entry_deterministic (key filename1 filename2 : str) (w1 w2 : world)
    (paras imgs : list str) :
  (read_docx_paragraphs filename1 w1).1 = Returned paras →
  (read_docx_paragraphs filename2 w2).1 = Returned paras →
  (extract_docx_images filename1 (path_join IMG_DIR key) w1).1 = Returned imgs →
  (extract_docx_images filename2 (path_join IMG_DIR key) w2).1 = Returned imgs →
  let out_file := path_join OUT_DIR (key ++ lit ".html") in
  (main_entry (key, filename1) w1).1 = Returned ()
  ∧ (main_entry (key, filename2) w2).1 = Returned ()
  ∧ ∃ html,
      files (main_entry (key, filename1) w1).2 !! out_file = Some (Text html)
      ∧ files (main_entry (key, filename2) w2).2 !! out_file = Some (Text html).
Proof.
  intros Hr1 Hr2 Hi1 Hi2 out_file.
  destruct (main_entry_writes key filename1 w1 paras imgs Hr1 Hi1) as [Ho1 Hp1].
  destruct (main_entry_writes key filename2 w2 paras imgs Hr2 Hi2) as [Ho2 Hp2].
  split_and!; [done..|]. eauto.
Qed.

(** *** The run as a list of effects *)

Lemma effects_nil (w : world) : effects [] [] w = w.
Proof. destruct w as [f o]. unfold effects. simpl. by rewrite app_nil_r. Qed.

Lemma effects_app (ws1 ws2 : list (str * blob)) (pr1 pr2 : list str) (w : world) :
  effects ws2 pr2 (effects ws1 pr1 w) = effects (ws1 ++ ws2) (pr1 ++ pr2) w.
Proof. unfold effects. simpl. by rewrite foldl_app, app_assoc. Qed.

Lemma print_effects (s : str) (w : world) : print s w = (Returned (), effects [] [s] w).
Proof. done. Qed.

Lemma write_effects (path : str) (b : blob) (w : world) :
  write path b w = (Returned (), effects [(path, b)] [] w).
Proof. unfold write, effects. simpl. by rewrite app_nil_r. Qed.

(** The same writes keep two worlds equal where they were. *)
Lemma effects_agree (ws : list (str * blob)) (pr1 pr2 : list str) (w1 w2 : world) (path : str) :
  files w1 !! path = files w2 !! path →
  files (effects ws pr1 w1) !! path = files (effects ws pr2 w2) !! path.
Proof.
  unfold effects. simpl. generalize (files w1) (files w2).
  induction ws as [|[q b] ws IH]; intros m1 m2 Hm; [done|].
  simpl. apply IH. destruct (decide (q = path)) as [-> | Hne].
  - by rewrite !lookup_insert_eq.
  - by rewrite !lookup_insert_ne.
Qed.


(** *** Archives that cannot be read *)

(** A source that is there but is no archive: [main_entry] raises, after
    the [READ] line and before anything is written. *)
Lemma main_entry_not_zip (key filename : str) (w : world) (b : blob) :
  files w !! filename = Some b → (∀ entries, b ≠ Zip entries) →
  main_entry (key, filename) w
  = (Raised BadZipFile, effects [] [lit "[READ] " ++ filename] w).
Proof.
  intros Hf Hb. unfold main_entry.
  rewrite (bind_returned _ _ w w true)
    by (unfold path_exists; rewrite Hf; by rewrite bool_decide_eq_true_2).
  cbn [negb]. rewrite (bind_returned _ _ _ _ () (print_effects _ w)).
  apply bind_raised. unfold read_docx_paragraphs. apply bind_raised.
  unfold open_zip. change (files (effects [] [lit "[READ] " ++ filename] w)) with (files w).
  rewrite Hf. destruct b; try done. by destruct (Hb entries).
Qed.

(** An archive without the body entry: [KeyError], likewise. *)
Lemma main_entry_no_body (key filename : str) (w : world) (entries : list (str * blob)) :
  files w !! filename = Some (Zip entries) →
  (∀ e, e ∈ entries → e.1 ≠ lit "word/document.xml") →
  main_entry (key, filename) w
  = (Raised KeyError, effects [] [lit "[READ] " ++ filename] w).
Proof.
  intros Hf Hb. unfold main_entry.
  rewrite (bind_returned _ _ w w true)
    by (unfold path_exists; rewrite Hf; by rewrite bool_decide_eq_true_2).
  cbn [negb]. rewrite (bind_returned _ _ _ _ () (print_effects _ w)).
  apply bind_raised. unfold read_docx_paragraphs.
  rewrite (bind_returned _ _ _ (effects [] [lit "[READ] " ++ filename] w) entries).
  2:{ unfold open_zip.
      change (files (effects [] [lit "[READ] " ++ filename] w)) with (files w).
      by rewrite Hf. }
  apply bind_raised. unfold zip_read.
  assert (Hnone : filter (λ e : str * blob, e.1 = lit "word/document.xml") entries = []).
  { clear Hf. induction entries as [|x l IH]; [done|].
    rewrite filter_cons_False by apply Hb, list_elem_of_here.
    apply IH. intros e He. by apply Hb, list_elem_of_further. }
  by rewrite Hnone.
Qed.

(** An exception in one entry ends the loop: the entries after it are not
    processed. *)
Lemma main_loop_raises (entry : str * str) (rest : list (str * str)) (w w' : world) (e : exn) :
  main_entry entry w = (Raised e, w') →
  main_loop (entry :: rest) w = (Raised e, w').
Proof. intros He. unfold main_loop. cbn [for_each]. by apply bind_raised. Qed.

Lemma extract_loop_effects (entries : list (str * blob)) (out_folder : str)
    (media_files extracted : list str) :
  ∃ o ws, ∀ w, extract_loop entries out_folder media_files extracted w = (o, effects ws [] w).
Proof.
  revert extracted. induction media_files as [|f fs IH]; intros extracted.
  - exists (Returned extracted), []. intros w. by rewrite effects_nil.
  - cbn [extract_loop]. unfold zip_read.
    destruct (last (filter (λ e, e.1 = f) entries)) as [e|].
    + destruct (IH (extracted ++ [path_name f])) as (o & ws & Hloop).
      exists o, ((path_join out_folder (path_name f), e.2) :: ws). intros w.
      unfold mbind, io_bind, mret, io_ret. rewrite write_effects, Hloop.
      by rewrite effects_app.
    + exists (Raised KeyError), []. intros w. by rewrite effects_nil.
Qed.

Lemma extract_docx_images_effects (docx_path out_folder : str) (w1 w2 : world) :
  files w1 !! docx_path = files w2 !! docx_path →
  ∃ o ws,
    extract_docx_images docx_path out_folder w1 = (o, effects ws [] w1)
    ∧ extract_docx_images docx_path out_folder w2 = (o, effects ws [] w2).
Proof.
  intros Hf. unfold extract_docx_images, mbind, io_bind, mkdir, mret, io_ret, open_zip.
  rewrite Hf. destruct (files w2 !! docx_path) as [[entries|body|t|data]|];
    try (eexists _, []; rewrite !effects_nil; done).
  destruct (extract_loop_effects entries out_folder
              (filter (λ f, startswith (lit "word/media/") f = true) (namelist entries)) [])
    as (o & ws & Hloop).
  exists o, ws. by rewrite !Hloop.
Qed.

(** One entry: the outcome, the files written and the lines printed depend
    on the source file of the entry only. *)
Lemma main_entry_effects (entry : str * str) (w1 w2 : world) :
  files w1 !! entry.2 = files w2 !! entry.2 →
  ∃ o ws pr,
    main_entry entry w1 = (o, effects ws pr w1)
    ∧ main_entry entry w2 = (o, effects ws pr w2).
Proof.
  destruct entry as [key filename]. simpl. intros Hf.
  unfold main_entry.
  rewrite (bind_returned _ _ w1 w1 (bool_decide (is_Some (files w2 !! filename))))
    by (unfold path_exists; by rewrite Hf).
  rewrite (bind_returned _ _ w2 w2 (bool_decide (is_Some (files w2 !! filename))))
    by done.
  destruct (bool_decide (is_Some (files w2 !! filename))); cbn [negb].
  2:{ eexists _, [], _. rewrite !print_effects. split; reflexivity. }
  set (rd := lit "[READ] " ++ filename).
  rewrite (bind_returned _ _ w1 (effects [] [rd] w1) ()) by apply print_effects.
  rewrite (bind_returned _ _ w2 (effects [] [rd] w2) ()) by apply print_effects.
  assert (Hf' : files (effects [] [rd] w1) !! filename = files (effects [] [rd] w2) !! filename)
    by done.
  pose proof (read_docx_paragraphs_frame filename (effects [] [rd] w2)
                (effects [] [rd] w1) Hf') as Hr1.
  pose proof (read_docx_paragraphs_frame filename (effects [] [rd] w2)
                (effects [] [rd] w2) eq_refl) as Hr2.
  destruct (read_docx_paragraphs filename (effects [] [rd] w2)).1 as [paras|e].
  2:{ exists (Raised e), [], [rd]. split; by apply bind_raised. }
  rewrite (bind_returned _ _ _ _ paras Hr1), (bind_returned _ _ _ _ paras Hr2).
  destruct (extract_docx_images_effects filename (path_join IMG_DIR key) _ _ Hf')
    as (o & ws & Hx1 & Hx2).
  destruct o as [imgs|e].
  2:{ exists (Raised e), ws, [rd].
      rewrite !effects_app, !app_nil_r in Hx1, Hx2. simpl in Hx1, Hx2.
      split; by apply bind_raised. }
  rewrite (bind_returned _ _ _ _ imgs Hx1), (bind_returned _ _ _ _ imgs Hx2).
  eexists (Returned ()), _, _.
  unfold mbind, io_bind. rewrite !write_effects, !print_effects, !effects_app.
  split; reflexivity.
Qed.

Lemma for_each_effects {A} (body : A → io unit) (src : A → str) (xs : list A) :
  (∀ x w1 w2, files w1 !! src x = files w2 !! src x →
     ∃ o ws pr, body x w1 = (o, effects ws pr w1) ∧ body x w2 = (o, effects ws pr w2)) →
  ∀ w1 w2, (∀ x, x ∈ xs → files w1 !! src x = files w2 !! src x) →
  ∃ o ws pr,
    for_each xs body w1 = (o, effects ws pr w1)
    ∧ for_each xs body w2 = (o, effects ws pr w2).
Proof.
  intros Hbody. induction xs as [|x xs IH]; intros w1 w2 Hsrc.
  - exists (Returned ()), [], []. by rewrite !effects_nil.
  - cbn [for_each].
    destruct (Hbody x w1 w2) as (o & ws & pr & H1 & H2).
    { apply Hsrc, list_elem_of_here. }
    destruct o as [[]|e].
    2:{ exists (Raised e), ws, pr. split; by apply bind_raised. }
    rewrite (bind_returned _ _ _ _ () H1), (bind_returned _ _ _ _ () H2).
    destruct (IH (effects ws pr w1) (effects ws pr w2)) as (o' & ws' & pr' & H1' & H2').
    { intros y Hy. apply effects_agree, Hsrc. by apply list_elem_of_further. }
    exists o', (ws ++ ws'), (pr ++ pr'). by rewrite H1', H2', !effects_app.
Qed.

(** The whole run is a function of the configured source files: on two
    worlds that hold the same source files, [main] ends the same way, writes
    the same files with the same contents and prints the same lines. *)
Theorem main_same_effects (w1 w2 : world) :
  (∀ entry, entry ∈ DOCS → files w1 !! entry.2 = files w2 !! entry.2) →
  ∃ o ws pr,
    main w1 = (o, effects ws pr w1) ∧ main w2 = (o, effects ws pr w2).
Proof.
  intros Hsrc. unfold main, main_loop.
  unfold mkdir. rewrite !(bind_returned (mret ()) _ _ _ () eq_refl).
  destruct (for_each_effects main_entry snd DOCS main_entry_effects w1 w2 Hsrc)
    as (o & ws & pr & H1 & H2).
  destruct o as [[]|e].
  2:{ exists (Raised e), ws, pr. split; by apply bind_raised. }
  rewrite (bind_returned _ _ _ _ () H1), (bind_returned _ _ _ _ () H2).
  eexists (Returned ()), _, _. rewrite !print_effects, !effects_app.
  split; reflexivity.
Qed.

End Driver_facts.

(** Witness of [cut_section_first_match]: both cases on concrete paragraphs. *)
Lemma cut_section_first_match_witness :
  @cut_section ascii_unicode [lit "Intro"; lit "Body"] (Some [lit "zzz"])
    = [lit "Intro"; lit "Body"]
  ∧ @cut_section ascii_unicode [lit "Intro"; lit "the advanced sketch"; lit "More"]
      (Some [lit "🎨"; lit "THE ADVANCED SKETCH"]) = [lit "Intro"].
Proof.
  split.
  - apply (@cut_section_first_match ascii_unicode). right. right.
    exists [lit "zzz"]. split; [done|]. intros line m Hl Hm.
    apply list_elem_of_In in Hl, Hm. simpl in Hl, Hm.
    destruct Hm as [<- | []]. destruct Hl as [<- | [<- | []]]; vm_compute; reflexivity.
  - eapply (@cut_section_first_match ascii_unicode
              [lit "Intro"; lit "the advanced sketch"; lit "More"]
              (Some [lit "🎨"; lit "THE ADVANCED SKETCH"])).
    + reflexivity.
    + instantiate (1 := [lit "More"]). instantiate (1 := lit "the advanced sketch").
      reflexivity.
    + intros l m' Hl Hm'. apply list_elem_of_In in Hl, Hm'. simpl in Hl, Hm'.
      destruct Hl as [<- | []].
      destruct Hm' as [<- | [<- | []]]; vm_compute; reflexivity.
    + instantiate (1 := lit "THE ADVANCED SKETCH"). apply list_elem_of_In. simpl. tauto.
    + vm_compute. reflexivity.
Defined.

(** C7 as stated fails: the marker is the text of paragraph 1, but
    paragraph 0 holds it too and the result is empty, not [[0, 1)]. *)
Lemma cut_section_exact_marker_counterexample :
  ¬ (∀ (U : Unicode) (paras : list str) (i : nat) (p : str) (ms : list str),
       paras !! i = Some p → p ∈ ms →
       cut_section paras (Some ms) = take i paras).
Proof.
  intros Hclaim.
  specialize (Hclaim ascii_unicode [lit "Appendix A"; lit "Appendix"] 1%nat
                (lit "Appendix") [lit "Appendix"]).
  vm_compute in Hclaim. discriminate Hclaim; [reflexivity | apply list_elem_of_here].
Qed.

(** Witness of [cut_section_exact_marker]. *)
Lemma cut_section_exact_marker_witness :
  @cut_section ascii_unicode [lit "Intro"; lit "Body"; lit "Appendix"]
    (Some [lit "Appendix"]) = take 2 [lit "Intro"; lit "Body"; lit "Appendix"].
Proof.
  apply (@cut_section_exact_marker ascii_unicode _ 2%nat (lit "Appendix")).
  - reflexivity.
  - apply list_elem_of_here.
  - intros k l Hk Hl.
    destruct k as [|[|k]]; [| |lia]; injection Hl as <-; vm_compute; reflexivity.
Defined.

(** C4 as stated fails: with the word in lower case the line is not a major
    heading, although it reads as "module 1" in some casing, white space and
    a number at a word boundary. *)
Lemma classify_line_module_counterexample :
  ¬ (∀ (U : Unicode) (line w ws ds rest : str),
       lower w = lower (lit "Module") →
       ws ≠ [] → Forall (λ c, isspace c = true) ws →
       ds ≠ [] → Forall (λ c, isdecimal c = true) ds →
       Re.isword_opt (head rest) = false →
       line = w ++ ws ++ ds ++ rest →
       classify_line line = Kh2).
Proof.
  intros Hclaim.
  specialize (Hclaim ascii_unicode (lit "module 1") (lit "module") (lit " ") (lit "1") []).
  assert (Hk : @classify_line ascii_unicode (lit "module 1") = Kp) by (vm_compute; reflexivity).
  rewrite Hk in Hclaim. discriminate Hclaim; try done.
  - repeat constructor.
  - repeat constructor.
Qed.

(** Witness of [classify_line_module]. *)
Lemma classify_line_module_witness :
  @classify_line ascii_unicode (lit "Module 3: Scaling") = Kh2.
Proof.
  apply (@classify_line_module ascii_unicode _ (lit "Module") (lit " ") (lit "3") (lit ": Scaling")).
  - by right.
  - done.
  - repeat constructor.
  - done.
  - repeat constructor.
  - vm_compute. reflexivity.
  - vm_compute. reflexivity.
Defined.

(** C1: the scenario of the specification on the code. The second short
    line after "Framework" is not a second list item: the list is closed
    after "Builds trust." and "Builds trust again." is a plain paragraph. *)
Theorem scenario_second_line_is_paragraph :
  @content_pieces ascii_unicode
    [lit "Module 1"; lit "Framework"; lit "Builds trust.";
     lit "Builds trust again."; lit "Conclusion"]
  = [h2_piece (lit "Module 1"); h3_piece (lit "Framework");
     ul_open; li_piece (lit "Builds trust."); ul_close;
     p_piece (lit "Builds trust again."); h3_piece (lit "Conclusion")].
Proof. vm_compute. reflexivity. Qed.

(** Witness of [render_paragraph_candidate]: the line after "Framework". *)
Lemma render_paragraph_candidate_witness :
  out (@render_lines ascii_unicode ([lit "Framework"] ++ [lit "Builds trust."]))
  = out (@render_lines ascii_unicode [lit "Framework"])
    ++ (if in_ul (@render_lines ascii_unicode [lit "Framework"]) then [] else [ul_open])
    ++ [li_piece (strip (lit "Builds trust."))]
  ∧ in_ul (@render_lines ascii_unicode ([lit "Framework"] ++ [lit "Builds trust."])) = true.
Proof.
  pose proof (@render_paragraph_candidate ascii_unicode [lit "Framework"]
                (lit "Builds trust.")) as Hthm.
  cbv zeta in Hthm. destruct Hthm as [Hyes _]; [vm_compute; reflexivity|].
  apply Hyes. split.
  - exists (lit "Framework"). split; vm_compute; reflexivity.
  - split.
    + vm_compute. lia.
    + exists 46. split; [vm_compute; reflexivity | by left].
Defined.

(** Witness of [wrap_page_gallery]: a page without and one with an image. *)
Lemma wrap_page_gallery_witness :
  count_sub (lit "<figure")
    (wrap_page (lit "sports") (lit "Sports")
       (@build_content_html ascii_unicode [lit "Sports"]) []) = 0%nat
  ∧ ∃ before imgs after,
      wrap_page (lit "sports") (lit "Sports")
        (@build_content_html ascii_unicode [lit "Sports"]) [lit "image1.png"]
      = before ++ Page.gallery_before ++ imgs ++ Page.gallery_after ++ after
      ∧ contains (lit "../images/sports/image1.png") imgs = true.
Proof.
  pose proof (@wrap_page_gallery ascii_unicode (lit "sports") (lit "Sports")
                [lit "Sports"] []) as Hnone.
  pose proof (@wrap_page_gallery ascii_unicode (lit "sports") (lit "Sports")
                [lit "Sports"] [lit "image1.png"]) as Hsome.
  cbv zeta in Hnone, Hsome. split.
  - apply (proj1 Hnone); [reflexivity | by_compute].
  - destruct (proj2 Hsome) as (before & imgs & after & Hpage & Himgs); [done|].
    exists before, imgs, after. split; [exact Hpage|].
    apply (Himgs (lit "image1.png")); [apply list_elem_of_here|].
    intros c Hc. revert c Hc. apply Forall_forall. by_compute.
Defined.

(** C5: the code on an unreadable archive. With the business document
    present but no archive, or an archive without its body entry, the run
    ends with the exception and the page of the sports document, whose
    source is fine, is never written; with the business document missing,
    the entry is skipped and the sports page is written. *)
Theorem main_aborts_on_unreadable_archive :
  ((@main ascii_unicode world_not_zip).1 = Raised BadZipFile
   ∧ files (@main ascii_unicode world_not_zip).2 !! lit "platforms/sports.html" = None)
  ∧ ((@main ascii_unicode world_no_body).1 = Raised KeyError
     ∧ files (@main ascii_unicode world_no_body).2 !! lit "platforms/sports.html" = None)
  ∧ ((@main ascii_unicode world_missing).1 = Returned ()
     ∧ is_Some (files (@main ascii_unicode world_missing).2 !! lit "platforms/sports.html")).
Proof.
  split_and!; try (vm_compute; reflexivity).
  vm_compute. eexists. reflexivity.
Qed.

(** Witness of [main_entry_deterministic]: two archives with the same
    paragraphs and image names, in two different worlds. *)
Lemma main_entry_deterministic_witness :
  ∃ html,
    files (@main_entry ascii_unicode (lit "sports", sports_docx) world_missing).2
      !! path_join OUT_DIR (lit "sports" ++ lit ".html") = Some (Text html)
    ∧ files (@main_entry ascii_unicode (lit "sports", sports_docx) world_bis).2
      !! path_join OUT_DIR (lit "sports" ++ lit ".html") = Some (Text html).
Proof.
  apply (@main_entry_deterministic ascii_unicode (lit "sports") sports_docx sports_docx
           world_missing world_bis
           [lit "The Sports Platform"; lit "Module 1"; lit "Framework"; lit "Builds trust."]
           [lit "image1.png"]); vm_compute; reflexivity.
Defined.

(** * Further properties *)

(** ** Line Classifier: the kinds, characterised *)

Section Classifier_kinds.
Context `{Unicode}.

(** What [cls+] followed by [k] has matched when it succeeds. *)
Lemma plus_inv (cls : N → bool) (k : option N → str → bool) (s : str) :
  Re.plus cls k s = true →
  ∃ run c s', s = run ++ c :: s' ∧ Forall (λ x, cls x = true) run
              ∧ cls c = true ∧ k (Some c) s' = true.
Proof.
  induction s as [|x s IH]; [done|]. cbn [Re.plus].
  intros Hp. apply andb_true_iff in Hp as [Hx Hp].
  apply orb_true_iff in Hp as [Hp | Hk].
  - destruct (IH Hp) as (run & c & s' & -> & Hrun & Hc & Hk).
    exists (x :: run), c, s'. split_and!; [done | by constructor | done | done].
  - exists [], x, s. split_and!; [done | constructor | done | done].
Qed.

Lemma match_alt_inv (alts : list str) (pat : list Re.atom) (prev : option N) (s : str) :
  Re.match_here (Re.Alt alts :: pat) prev s = true →
  ∃ a rest, a ∈ alts ∧ s = a ++ rest
            ∧ Re.match_here pat (Re.prev_after a prev) rest = true.
Proof.
  cbn [Re.match_here]. intros Hm. apply existsb_exists in Hm as (a & Ha & Hm).
  apply andb_true_iff in Hm as [Hs Hm].
  apply startswith_spec in Hs as [rest ->].
  rewrite drop_app_length in Hm. exists a, rest.
  split_and!; [by apply list_elem_of_In | done | done].
Qed.

Lemma re_module_shape (line : str) :
  Re.re_match re_module line = true ↔ module_shape line.
Proof.
  unfold Re.re_match, re_module. split.
  - intros Hm. apply match_alt_inv in Hm as (w & tail & Hw & -> & Hm).
    cbn [Re.match_here] in Hm.
    apply plus_inv in Hm as (ws & sp & tail' & -> & Hws & Hsp & Hm).
    apply plus_inv in Hm as (ds & d & rest & -> & Hds & Hd & Hm).
    rewrite andb_true_r in Hm. unfold Re.at_boundary, Re.isword_opt at 1, Re.isword in Hm.
    rewrite (isdecimal_isalnum _ Hd) in Hm. simpl in Hm.
    apply negb_true_iff in Hm.
    exists w, (ws ++ [sp]), (ds ++ [d]), rest. split_and!.
    + apply elem_of_cons in Hw as [-> | Hw]; [by left|].
      apply list_elem_of_singleton in Hw as ->. by right.
    + by destruct ws.
    + apply Forall_app. by repeat constructor.
    + by destruct ds.
    + apply Forall_app. by repeat constructor.
    + done.
    + by rewrite <- !app_assoc.
  - intros (w & ws & ds & rest & Hw & Hws & Hsp & Hds & Hdig & Hrest & ->).
    destruct (snoc_view ws Hws) as (ws' & sp & ->).
    destruct (snoc_view ds Hds) as (ds' & d & ->).
    apply Forall_app in Hsp as [Hsp' Hsp]. apply Forall_app in Hdig as [Hdig' Hdig].
    apply Forall_inv in Hsp, Hdig.
    apply match_alt.
    { apply list_elem_of_In. simpl. destruct Hw as [-> | ->]; tauto. }
    cbn [Re.match_here]. rewrite <- !app_assoc. simpl.
    apply plus_run; [done..|]. apply plus_run; [done..|].
    unfold Re.at_boundary, Re.isword_opt at 1, Re.isword.
    rewrite (isdecimal_isalnum _ Hdig), Hrest. done.
Qed.

Lemma re_summary_shape (line : str) :
  isalnum 121 = true → isalnum 89 = true →
  Re.re_match re_summary line = true ↔ summary_shape line.
Proof.
  intros Hy HY. unfold Re.re_match, re_summary. split.
  - intros Hm. apply match_alt_inv in Hm as (w & rest & Hw & -> & Hm).
    cbn [Re.match_here] in Hm. rewrite andb_true_r in Hm.
    unfold Re.at_boundary in Hm.
    apply elem_of_cons in Hw as [-> | Hw].
    + exists (lit "Executive Summary"), rest. split_and!; [by left | | done].
      change (Re.prev_after (lit "Executive Summary") None) with (Some 121) in Hm.
      unfold Re.isword_opt at 1, Re.isword in Hm. rewrite Hy in Hm.
      by apply negb_true_iff in Hm.
    + apply list_elem_of_singleton in Hw as ->.
      exists (lit "EXECUTIVE SUMMARY"), rest. split_and!; [by right | | done].
      change (Re.prev_after (lit "EXECUTIVE SUMMARY") None) with (Some 89) in Hm.
      unfold Re.isword_opt at 1, Re.isword in Hm. rewrite HY in Hm.
      by apply negb_true_iff in Hm.
  - intros (w & rest & Hw & Hrest & ->).
    destruct Hw as [-> | ->]; apply match_alt;
      try apply list_elem_of_here;
      try apply list_elem_of_further, list_elem_of_here;
      cbn [Re.match_here]; rewrite andb_true_r; unfold Re.at_boundary; rewrite Hrest.
    + change (Re.prev_after (lit "Executive Summary") None) with (Some 121).
      unfold Re.isword_opt, Re.isword. by rewrite Hy.
    + change (Re.prev_after (lit "EXECUTIVE SUMMARY") None) with (Some 89).
      unfold Re.isword_opt, Re.isword. by rewrite HY.
Qed.

Lemma re_core_shape (line : str) :
  isalnum 58 = false →
  Re.re_match re_core line = true ↔ callout_shape line.
Proof.
  intros Hcolon. unfold Re.re_match, re_core. split.
  - intros Hm. apply match_alt_inv in Hm as (w & rest & Hw & -> & Hm).
    apply list_elem_of_singleton in Hw. subst w.
    cbn [Re.match_here] in Hm. rewrite andb_true_r in Hm.
    unfold Re.at_boundary in Hm.
    change (Re.prev_after (lit "Core Principle:") None) with (Some 58) in Hm.
    unfold Re.isword_opt at 1, Re.isword at 1 in Hm.
    rewrite Hcolon in Hm. change (58 =? 95) with false in Hm.
    destruct rest as [|c rest]; [done|]. by exists c, rest.
  - intros (c & rest & Hc & ->). apply match_alt; [apply list_elem_of_here|].
    cbn [Re.match_here]. rewrite andb_true_r. unfold Re.at_boundary.
    change (Re.prev_after (lit "Core Principle:") None) with (Some 58).
    unfold Re.isword_opt, head. unfold Re.isword at 1.
    rewrite Hcolon, Hc. done.
Qed.

End Classifier_kinds.

(** ** White space at the ends *)

Lemma lstrip_split (s : str) :
  ∃ pre, s = pre ++ lstrip s ∧ Forall (λ c, isspace c = true) pre.
Proof.
  induction s as [|c s (pre & Hs & Hpre)]; [by exists []|].
  cbn [lstrip]. destruct (isspace c) eqn:Hc.
  - exists (c :: pre). split; [by rewrite Hs at 1 | by constructor].
  - by exists [].
Qed.

Lemma lstrip_head (s : str) (c : N) : head (lstrip s) = Some c → isspace c = false.
Proof.
  induction s as [|x s IH]; [done|]. cbn [lstrip].
  destruct (isspace x) eqn:Hx; [done|]. by intros [= <-].
Qed.

Lemma lstrip_id (s : str) :
  (∀ c, head s = Some c → isspace c = false) → lstrip s = s.
Proof.
  destruct s as [|x s]; [done|]. intros Hh. cbn [lstrip].
  by rewrite (Hh x eq_refl).
Qed.

Lemma rstrip_split (s : str) :
  ∃ post, s = rstrip s ++ post ∧ Forall (λ c, isspace c = true) post.
Proof.
  unfold rstrip. destruct (lstrip_split (rev s)) as (pre & Hs & Hpre).
  exists (rev pre). split.
  - rewrite <- rev_app_distr, <- Hs. by rewrite rev_involutive.
  - apply Forall_forall. intros c Hc. rewrite Forall_forall in Hpre.
    apply Hpre. apply list_elem_of_In. apply in_rev. by apply list_elem_of_In.
Qed.

Lemma last_rev_head {A} (l : list A) : last (rev l) = head l.
Proof. destruct l as [|x l]; [done|]. simpl. by rewrite last_snoc. Qed.

Lemma rstrip_last (s : str) (c : N) : last (rstrip s) = Some c → isspace c = false.
Proof. unfold rstrip. rewrite last_rev_head. apply lstrip_head. Qed.

Lemma rstrip_id (s : str) :
  (∀ c, last s = Some c → isspace c = false) → rstrip s = s.
Proof.
  intros Hl. unfold rstrip. rewrite lstrip_id; [apply rev_involutive|].
  intros c Hc. apply Hl. by rewrite <- (rev_involutive s), last_rev_head.
Qed.

(** Trailing white space apart, [rstrip] keeps the first character. *)
Lemma rstrip_head (s : str) (c : N) :
  head (rstrip s) = Some c → head s = Some c.
Proof.
  destruct (rstrip_split s) as (post & Hs & _). intros Hc.
  rewrite Hs. by destruct (rstrip s).
Qed.

Lemma strip_trimmed (s : str) : trimmed (strip s).
Proof.
  unfold strip. split.
  - intros c Hc. apply rstrip_head in Hc. by apply lstrip_head in Hc.
  - apply rstrip_last.
Qed.

Lemma trimmed_strip (s : str) : trimmed s → strip s = s.
Proof. intros [Hh Hl]. unfold strip. by rewrite (lstrip_id s Hh), (rstrip_id s Hl). Qed.

Lemma strip_strip (s : str) : strip (strip s) = strip s.
Proof. apply trimmed_strip, strip_trimmed. Qed.

(** A line is its trimmed text between two runs of white space. *)
Lemma strip_split (s : str) :
  ∃ pre post, s = pre ++ strip s ++ post
              ∧ Forall (λ c, isspace c = true) pre
              ∧ Forall (λ c, isspace c = true) post.
Proof.
  destruct (lstrip_split s) as (pre & Hs & Hpre).
  destruct (rstrip_split (lstrip s)) as (post & Hl & Hpost).
  exists pre, post. unfold strip. by rewrite <- Hl.
Qed.

(** ** Line Classifier: the kinds, characterised (continued) *)

Lemma alt_no_match `{Unicode} (alts : list str) (pat : list Re.atom) (line : str) :
  Forall (λ a, startswith a line = false) alts →
  Re.re_match (Re.Alt alts :: pat) line = false.
Proof.
  intros Hall. unfold Re.re_match. cbn [Re.match_here].
  induction Hall as [|a alts Ha _ IH]; [done|].
  cbn [existsb]. by rewrite Ha, IH.
Qed.

(** The labels that the three patterns begin with. *)
Lemma title_not_label (t pre post a : str) :
  t ∈ subsection_titles →
  a ∈ [lit "MODULE"; lit "Module"; lit "Executive Summary"; lit "EXECUTIVE SUMMARY";
       lit "Core Principle:"] →
  Forall (λ c, isspace c = true) pre →
  startswith a (pre ++ t ++ post) = false.
Proof.
  intros Ht Ha Hpre. destruct pre as [|c pre].
  - unfold subsection_titles in Ht.
    repeat (apply elem_of_cons in Ht as [-> | Ht]); [..|by apply elem_of_nil in Ht];
      repeat (apply elem_of_cons in Ha as [-> | Ha]);
      try (by apply elem_of_nil in Ha); vm_compute; reflexivity.
  - apply Forall_inv in Hpre.
    repeat (apply elem_of_cons in Ha as [-> | Ha]); try (by apply elem_of_nil in Ha);
      match goal with
      | |- startswith ?a _ = false =>
        let v := eval vm_compute in a in change a with v
      end;
      cbn [app startswith];
      match goal with
      | |- (?x =? c) && _ = false =>
        destruct (N.eqb_spec x c) as [<- | _]; [vm_compute in Hpre; discriminate | done]
      end.
Qed.

Section Classifier_kinds_2.
Context `{Unicode}.

Lemma title_no_pattern (line : str) :
  strip line ∈ subsection_titles →
  Re.re_match re_module line = false
  ∧ Re.re_match re_summary line = false
  ∧ Re.re_match re_core line = false.
Proof.
  intros Ht. destruct (strip_split line) as (pre & post & Hline & Hpre & _).
  rewrite Hline at 1 2 3. unfold re_module, re_summary, re_core.
  split_and!; apply alt_no_match; repeat constructor;
    (apply title_not_label; [done | | done]);
    repeat first [apply list_elem_of_here | apply list_elem_of_further].
Qed.

Lemma callout_no_pattern (line : str) :
  callout_shape line →
  Re.re_match re_module line = false ∧ Re.re_match re_summary line = false.
Proof.
  intros (c & rest & _ & ->). unfold re_module, re_summary.
  split; apply alt_no_match; repeat constructor; vm_compute; reflexivity.
Qed.

End Classifier_kinds_2.

Section Classifier_kinds_3.
Context `{Unicode}.

(** X1. A line is a major heading exactly when it has the shape of the
    module pattern or of the executive-summary pattern (the tables taking
    the letters y and Y as word characters). *)
Theorem classify_line_h2_iff (line : str) :
  isalnum 121 = true → isalnum 89 = true →
  classify_line line = Kh2 ↔ module_shape line ∨ summary_shape line.
Proof.
  intros Hy HY. unfold classify_line.
  rewrite <- re_module_shape, <- (re_summary_shape line Hy HY).
  destruct (Re.re_match re_module line); [by intuition|].
  destruct (Re.re_match re_summary line); [by intuition|].
  destruct (Re.re_match re_core line);
    [|destruct (existsb (str_eqb (strip line)) subsection_titles)];
    split; (done || intros [|]; done).
Qed.

(** X2. A line is a callout exactly when the label "Core Principle:" is
    followed at once by a word character (the tables taking the colon as no
    word character): the pattern ends in a word boundary, so the label
    followed by a space, or by nothing, is no callout. *)
Theorem classify_line_core_iff (line : str) :
  isalnum 58 = false →
  classify_line line = Kcore ↔ callout_shape line.
Proof.
  intros Hcolon. rewrite <- (re_core_shape line Hcolon). split.
  - unfold classify_line.
    destruct (Re.re_match re_module line); [done|].
    destruct (Re.re_match re_summary line); [done|].
    destruct (Re.re_match re_core line); [done|].
    by destruct (existsb (str_eqb (strip line)) subsection_titles).
  - intros Hc. pose proof Hc as Hshape. apply (re_core_shape line Hcolon) in Hshape.
    destruct (callout_no_pattern line Hshape) as [Hm Hs].
    unfold classify_line. by rewrite Hm, Hs, Hc.
Qed.

(** X3. A line is a minor heading exactly when its trimmed text is one of
    the eight section titles. *)
Theorem classify_line_h3_iff (line : str) :
  classify_line line = Kh3 ↔ strip line ∈ subsection_titles.
Proof.
  assert (Hex : existsb (str_eqb (strip line)) subsection_titles = true
                ↔ strip line ∈ subsection_titles).
  { rewrite existsb_exists. split.
    - intros (t & Ht & Heq). apply bool_decide_eq_true in Heq. rewrite Heq.
      by apply list_elem_of_In.
    - intros Ht. exists (strip line). split; [by apply list_elem_of_In|].
      by apply bool_decide_eq_true. }
  split.
  - intros Hk. apply Hex. unfold classify_line in Hk.
    destruct (Re.re_match re_module line); [done|].
    destruct (Re.re_match re_summary line); [done|].
    destruct (Re.re_match re_core line); [done|].
    by destruct (existsb (str_eqb (strip line)) subsection_titles).
  - intros Ht. destruct (title_no_pattern line Ht) as (Hm & Hs & Hc).
    apply Hex in Ht. unfold classify_line. by rewrite Hm, Hs, Hc, Ht.
Qed.

End Classifier_kinds_3.

(** ** Content Renderer: what the fragment holds *)

Lemma tags_among_app (al : list N) (a b : str) :
  tags_among al a = true → tags_among al b = true → tags_among al (a ++ b) = true.
Proof.
  intros Ha Hb. induction a as [|c a IH]; [done|].
  cbn [tags_among] in Ha. apply andb_true_iff in Ha as [Hc Ha].
  change ((c :: a) ++ b) with (c :: (a ++ b)). cbn [tags_among].
  rewrite (IH Ha), andb_true_r.
  destruct (c =? 60); [|done]. by destruct a.
Qed.

Lemma tags_among_no_lt (al : list N) (s : str) : 60 ∉ s → tags_among al s = true.
Proof.
  induction s as [|c s IH]; intros Hs; [done|].
  apply not_elem_of_cons in Hs as [Hc Hs]. cbn [tags_among]. rewrite (IH Hs).
  destruct (N.eqb_spec c 60); [congruence | done].
Qed.

Lemma tags_among_spec (al : list N) (s a b : str) :
  tags_among al s = true → s = a ++ 60 :: b → ∃ d b', b = d :: b' ∧ d ∈ al.
Proof.
  revert s. induction a as [|c a IH]; intros s Hs ->.
  - cbn in Hs. apply andb_true_iff in Hs as [Hd _].
    destruct b as [|d b']; [done|]. apply bool_decide_eq_true in Hd. eauto.
  - change ((c :: a) ++ 60 :: b) with (c :: (a ++ 60 :: b)) in Hs.
    cbn [tags_among] in Hs. apply andb_true_iff in Hs as [_ Hs]. by eapply IH.
Qed.

Lemma tags_among_join (al : list N) (pieces : list str) :
  Forall (λ piece, tags_among al piece = true) pieces →
  tags_among al (join newline pieces) = true.
Proof.
  intros Hall. induction Hall as [|x l Hx Hl IH]; [done|].
  destruct l as [|y l]; [done|].
  change (join newline (x :: y :: l)) with (x ++ newline ++ join newline (y :: l)).
  by repeat apply tags_among_app.
Qed.

Ltac tags_markup :=
  unfold h2_piece, h3_piece, p_piece, core_piece, li_piece;
  repeat first
    [ apply tags_among_no_lt, escape_no_lt
    | apply tags_among_app
    | (vm_compute; reflexivity) ].

Lemma tags_among_plain (piece : str) :
  plain_piece piece → tags_among tag_heads piece = true.
Proof. intros [line|line|line|line]; tags_markup. Qed.

Lemma tags_among_rendered (o : list str) :
  rendered o → Forall (λ piece, tags_among tag_heads piece = true) o.
Proof.
  induction 1 as [|piece o Hp _ IH|line o _ IH].
  - constructor.
  - constructor; [by apply tags_among_plain | done].
  - apply Forall_cons; split; [vm_compute; reflexivity|].
    apply Forall_cons; split; [tags_markup|].
    apply Forall_cons; split; [vm_compute; reflexivity | done].
Qed.

(** The characters that [escape] rewrites are gone, the ampersand apart. *)
Lemma replace1_keeps_out_all (cs : list N) (old : N) (new s : str) :
  Forall (λ c, c ∉ new) cs → Forall (λ c, c ∉ s) cs →
  Forall (λ c, c ∉ replace1 old new s) cs.
Proof.
  intros Hnew Hs. apply Forall_forall. intros c Hc.
  rewrite Forall_forall in Hnew, Hs. apply replace1_keeps_out; auto.
Qed.

(** X7. The text that [escape] returns holds no [<], no [>], no double
    quote and no apostrophe. *)
Theorem escape_no_markup (s : str) (c : N) :
  c ∈ escape s → c ≠ 60 ∧ c ≠ 62 ∧ c ≠ dquote ∧ c ≠ 39.
Proof.
  intros Hc.
  assert (H60 : 60 ∉ escape s) by apply escape_no_lt.
  assert (H62 : 62 ∉ escape s).
  { unfold escape. cbv zeta.
    do 2 (apply replace1_keeps_out; [by_compute|]). apply replace1_removes. by_compute. }
  assert (H34 : dquote ∉ escape s).
  { unfold escape. cbv zeta.
    apply replace1_keeps_out; [by_compute|]. apply replace1_removes. by_compute. }
  assert (H39 : 39 ∉ escape s).
  { unfold escape. cbv zeta. apply replace1_removes. by_compute. }
  split_and!; by intros ->.
Qed.

Section Renderer_content.
Context `{Unicode}.

(** X4. White space around a paragraph does not change the fragment: each
    line is trimmed before it is classified and written. *)
Theorem build_content_html_strip (paras : list str) :
  build_content_html (strip <$> paras) = build_content_html paras.
Proof.
  unfold build_content_html, content_pieces. do 3 f_equal.
  induction paras as [|raw paras IH] using rev_ind; [done|].
  rewrite fmap_app. cbn [fmap list_fmap]. rewrite !render_lines_snoc, IH.
  unfold render_line. by rewrite strip_strip.
Qed.

(** X5. Every [<] of the fragment opens one of the renderer's own tags:
    the text of the paragraphs cannot open a tag. *)
Theorem build_content_html_tags (paras : list str) (a b : str) :
  build_content_html paras = a ++ 60 :: b →
  ∃ d b', b = d :: b' ∧ d ∈ tag_heads.
Proof.
  apply tags_among_spec. unfold build_content_html.
  apply tags_among_join, tags_among_rendered, content_pieces_rendered.
Qed.

End Renderer_content.

(** Witness of [classify_line_h2_iff]. *)
Lemma classify_line_h2_iff_witness :
  @classify_line ascii_unicode (lit "EXECUTIVE SUMMARY (draft)") = Kh2.
Proof.
  apply (@classify_line_h2_iff ascii_unicode); [reflexivity | reflexivity |].
  right. exists (lit "EXECUTIVE SUMMARY"), (lit " (draft)").
  split_and!; [by right | reflexivity | reflexivity].
Defined.

(** Witness of [classify_line_core_iff]. *)
Lemma classify_line_core_iff_witness :
  @classify_line ascii_unicode (lit "Core Principle:Focus") = Kcore.
Proof.
  apply (@classify_line_core_iff ascii_unicode); [reflexivity|].
  exists 70, (lit "ocus"). split; reflexivity.
Defined.

(** ** Content Renderer: one piece for each line *)

Lemma plain_not_ul_close (piece : str) : plain_piece piece → piece ≠ ul_close.
Proof.
  intros [line|line|line|line] Heq; apply (f_equal (take 2)) in Heq;
    vm_compute in Heq; discriminate.
Qed.

Lemma li_not_ul_close (line : str) : li_piece line ≠ ul_close.
Proof. intros Heq. apply (f_equal (take 2)) in Heq. vm_compute in Heq. discriminate. Qed.

Lemma piece_of_kind_line_piece (k : kind) (line piece : str) :
  piece_of_kind k line piece → piece ≠ ul_open ∧ piece ≠ ul_close.
Proof.
  assert (Hplain : ∀ x, plain_piece x → x ≠ ul_open ∧ x ≠ ul_close).
  { intros x Hx. split; [by apply plain_not_ul_open | by apply plain_not_ul_close]. }
  destruct k; simpl.
  - intros ->. apply Hplain, plain_h2.
  - intros ->. apply Hplain, plain_h3.
  - intros ->. apply Hplain, plain_core.
  - intros [-> | ->].
    + split; [apply li_not_ul_open | apply li_not_ul_close].
    + apply Hplain, plain_p.
Qed.

(** The pieces other than the opening and closing of lists. *)
Lemma line_pieces_tags (tags : list str) :
  Forall (λ t, t = ul_open ∨ t = ul_close) tags →
  filter (λ piece, piece ≠ ul_open ∧ piece ≠ ul_close) tags = [].
Proof.
  induction 1 as [|t tags Ht _ IH]; [done|].
  rewrite filter_cons_False; [done|]. intros [H1 H2]. by destruct Ht.
Qed.

Section Renderer_lines.
Context `{Unicode}.

Lemma close_ul_out (st : render_state) :
  ∃ tags, out (close_ul st) = out st ++ tags
          ∧ Forall (λ t, t = ul_open ∨ t = ul_close) tags.
Proof.
  unfold close_ul. destruct (in_ul st).
  - exists [ul_close]. split; [done|]. apply Forall_cons. split; [by right | constructor].
  - exists []. split; [by rewrite app_nil_r | constructor].
Qed.

(** A line adds list tags, if any, and then its own piece. *)
Lemma render_line_out (st : render_state) (raw : str) :
  ∃ tags piece,
    out (render_line st raw) = out st ++ tags ++ [piece]
    ∧ Forall (λ t, t = ul_open ∨ t = ul_close) tags
    ∧ piece_of_kind (classify_line (strip raw)) (strip raw) piece.
Proof.
  destruct (close_ul_out st) as (tags & Hout & Htags).
  destruct (classify_line (strip raw)) eqn:Hk.
  - rewrite render_line_heading, Hk. simpl. rewrite Hout.
    exists tags, (h2_piece (strip raw)). by rewrite <- app_assoc.
  - rewrite render_line_heading, Hk. simpl. rewrite Hout.
    exists tags, (h3_piece (strip raw)). by rewrite <- app_assoc.
  - rewrite render_line_heading, Hk. simpl. rewrite Hout.
    exists tags, (core_piece (strip raw)). by rewrite <- app_assoc.
  - rewrite (render_line_p st raw Hk).
    destruct (bool_decide (prev_kind st = Some Kh3) && looks_bulleted (strip raw)); simpl.
    + exists (if in_ul st then [] else [ul_open]), (li_piece (strip raw)).
      split_and!; [done | | by left].
      destruct (in_ul st); [constructor|]. apply Forall_cons. split; [by left | constructor].
    + exists (if in_ul st then [ul_close] else []), (p_piece (strip raw)).
      split_and!; [done | | by right].
      destruct (in_ul st); [|constructor]. apply Forall_cons. split; [by right | constructor].
Qed.

(** X6. The fragment has one piece for each paragraph, in the order of
    the paragraphs, list tags apart; the piece has the form of the kind of
    its line: no paragraph is lost, doubled or moved. *)
Theorem content_pieces_lines (paras : list str) :
  Forall2 (λ raw piece, piece_of_kind (classify_line (strip raw)) (strip raw) piece)
    paras
    (filter (λ piece, piece ≠ ul_open ∧ piece ≠ ul_close) (content_pieces paras)).
Proof.
  unfold content_pieces.
  destruct (close_ul_out (render_lines paras)) as (tags & -> & Htags).
  rewrite filter_app, (line_pieces_tags tags Htags), app_nil_r.
  induction paras as [|raw paras IH] using rev_ind; [constructor|].
  rewrite render_lines_snoc.
  destruct (render_line_out (render_lines paras) raw) as (tags' & piece & -> & Ht & Hp).
  rewrite !filter_app, (line_pieces_tags tags' Ht). simpl.
  rewrite filter_cons_True by by eapply piece_of_kind_line_piece.
  apply Forall2_app; [done|]. by repeat constructor.
Qed.

End Renderer_lines.

(** ** Section Clipper: what is kept *)

Section Clipper_more.
Context `{Unicode}.

(** The loop returns a prefix of the paragraphs that holds no marker. *)
Lemma cut_section_kept (paras : list str) (ms : list str) :
  ∃ rest, paras = cut_section paras (Some ms) ++ rest
          ∧ Forall (λ l, line_hits ms l = false) (cut_section paras (Some ms)).
Proof.
  destruct ms as [|m ms].
  { exists []. split; [by rewrite app_nil_r|]. by apply Forall_forall. }
  destruct (first_hit (m :: ms) paras) as [Hall | (pre & line & post & -> & Hpre & Hline)].
  - rewrite cut_section_miss by done. exists []. by rewrite app_nil_r.
  - rewrite cut_section_hit by done. by exists (line :: post).
Qed.

(** X8. What the clipper returns is a prefix of its input, and no
    paragraph of it holds a marker. *)
Theorem cut_section_prefix_clean (paras : list str) (end_markers : option (list str)) :
  cut_section paras end_markers `prefix_of` paras
  ∧ ∀ ms, end_markers = Some ms →
      ∀ l m, l ∈ cut_section paras end_markers → m ∈ ms → contains_ci m l = false.
Proof.
  destruct end_markers as [ms|]; [|by split].
  destruct (cut_section_kept paras ms) as (rest & Hp & Hclean). split.
  - by exists rest.
  - intros ms' [= <-] l m Hl Hm. rewrite Forall_forall in Hclean.
    specialize (Hclean l Hl). rewrite line_hits_false in Hclean. by apply Hclean.
Qed.

(** X9. Clipping what was clipped changes nothing. *)
Theorem cut_section_idempotent (paras : list str) (end_markers : option (list str)) :
  cut_section (cut_section paras end_markers) end_markers = cut_section paras end_markers.
Proof.
  destruct end_markers as [ms|]; [|done].
  destruct (cut_section_kept paras ms) as (_ & _ & Hclean).
  by apply cut_section_miss.
Qed.

End Clipper_more.

(** ** Archive Reader: the paragraphs *)

Lemma collapse_blanks_no_tab (b : bool) (s : str) : 9 ∉ collapse_blanks b s.
Proof.
  revert b. induction s as [|c s IH]; intros b; [apply not_elem_of_nil|].
  cbn [collapse_blanks].
  destruct (N.eqb_spec c 32) as [-> | H32]; simpl.
  - destruct b; [apply IH|]. apply not_elem_of_cons. split; [done | apply IH].
  - destruct (N.eqb_spec c 9) as [-> | H9].
    + destruct b; [apply IH|]. apply not_elem_of_cons. split; [done | apply IH].
    + apply not_elem_of_cons. split; [congruence | apply IH].
Qed.

Lemma collapse_blanks_no_double (b : bool) (s : str) :
  contains [32; 32] (collapse_blanks b s) = false
  ∧ (b = true → head (collapse_blanks b s) ≠ Some 32).
Proof.
  revert b. induction s as [|c s IH]; intros b; [done|].
  cbn [collapse_blanks].
  destruct ((c =? 32) || (c =? 9)) eqn:Hblank.
  - destruct b; [apply IH|]. split; [|done].
    destruct (IH true) as [Hc Hh]. cbn [contains]. rewrite Hc, orb_false_r.
    cbn [startswith]. destruct (collapse_blanks true s) as [|y t]; [done|].
    destruct (N.eqb_spec 32 y) as [<- | _]; [|done]. by destruct Hh.
  - apply orb_false_iff in Hblank as [H32 H9]. apply N.eqb_neq in H32.
    destruct (IH false) as [Hc _]. split.
    + cbn [contains]. rewrite Hc, orb_false_r. cbn [startswith].
      destruct (N.eqb_spec 32 c); [congruence | done].
    + intros _ [= ->]. done.
Qed.

Lemma collapse_blanks_last (b : bool) (s : str) (c : N) :
  last s = Some c → (c =? 32) || (c =? 9) = false →
  last (collapse_blanks b s) = Some c.
Proof.
  intros Hlast Hc. revert b. induction s as [|x s IH]; intros b; [done|].
  destruct s as [|y s].
  - injection Hlast as ->. cbn [collapse_blanks]. by rewrite Hc.
  - specialize (IH Hlast). remember (y :: s) as t eqn:Ht.
    assert (Hcons : ∀ z b', last (z :: collapse_blanks b' t) = Some c).
    { intros z b'. specialize (IH b').
      destruct (collapse_blanks b' t); [done | exact IH]. }
    cbn [collapse_blanks].
    destruct ((x =? 32) || (x =? 9)); [destruct b|]; [apply IH | apply Hcons..].
Qed.

Lemma blank_is_space (c : N) : (c =? 32) || (c =? 9) = true → isspace c = true.
Proof.
  intros Hc. apply orb_true_iff in Hc as [Hc | Hc]; apply N.eqb_eq in Hc; by subst c.
Qed.

(** Collapsing the blanks of a trimmed, non-empty line gives a normalized
    line. *)
Lemma collapse_blanks_normalized (s : str) :
  s ≠ [] → trimmed s → normalized (collapse_blanks false s).
Proof.
  intros Hne [Hhead Hlast].
  assert (Hfirst : ∃ x t, s = x :: t ∧ (x =? 32) || (x =? 9) = false).
  { destruct s as [|x t]; [done|]. exists x, t. split; [done|].
    destruct ((x =? 32) || (x =? 9)) eqn:Hx; [|done].
    apply blank_is_space in Hx. by rewrite (Hhead x eq_refl) in Hx. }
  destruct Hfirst as (x & t & -> & Hx).
  assert (Hend : ∃ c, last (x :: t) = Some c ∧ (c =? 32) || (c =? 9) = false).
  { assert (Hsome : is_Some (last (x :: t))) by by apply last_is_Some.
    destruct Hsome as [c Hc]. exists c. split; [done|].
    destruct ((c =? 32) || (c =? 9)) eqn:Hb; [|done].
    apply blank_is_space in Hb. by rewrite (Hlast c Hc) in Hb. }
  destruct Hend as (c & Hc & Hcb).
  split_and!.
  - cbn [collapse_blanks]. by rewrite Hx.
  - split.
    + cbn [collapse_blanks]. rewrite Hx. intros y [= <-]. by apply Hhead.
    + intros y Hy. rewrite (collapse_blanks_last false _ c Hc Hcb) in Hy.
      injection Hy as <-. by apply Hlast.
  - apply collapse_blanks_no_tab.
  - apply collapse_blanks_no_double.
Qed.

Lemma paragraph_line_normalized (p : wpara) (line : str) :
  paragraph_line p = Some line → normalized line.
Proof.
  unfold paragraph_line.
  pose proof (strip_trimmed (concat (run_texts p))) as Ht.
  destruct (strip (concat (run_texts p))) as [|c s] eqn:Hs; [done|].
  intros [= <-]. by apply (collapse_blanks_normalized (c :: s)).
Qed.

(** What [read_docx_paragraphs] returns comes from the body of an archive. *)
Lemma read_docx_paragraphs_returned (docx_path : str) (w : world) (paras : list str) :
  (read_docx_paragraphs docx_path w).1 = Returned paras →
  ∃ entries body,
    files w !! docx_path = Some (Zip entries)
    ∧ (∃ e, last (filter (λ e, e.1 = lit "word/document.xml") entries) = Some e
            ∧ e.2 = XmlDoc body)
    ∧ paras = omap paragraph_line body.
Proof.
  unfold read_docx_paragraphs, mbind, io_bind, open_zip, zip_read, fromstring,
    mret, io_ret, raise.
  destruct (files w !! docx_path) as [[entries|body|t|data]|]; try done.
  destruct (last (filter (λ e, e.1 = lit "word/document.xml") entries)) as [e|] eqn:He;
    [|done].
  cbv beta iota zeta. destruct e.2 as [es|body|t|data] eqn:Hb; try done.
  cbv beta iota zeta. intros Heq. injection Heq as <-.
  exists entries, body. split_and!; [done | | done].
  exists e. by rewrite Hb.
Qed.

(** X10. Every paragraph that the reader returns is normalized: it is not
    empty, has no white space at its ends, no tab and no two spaces in a
    row. *)
Theorem read_docx_paragraphs_normalized (docx_path : str) (w : world) (paras : list str) :
  (read_docx_paragraphs docx_path w).1 = Returned paras →
  Forall normalized paras.
Proof.
  intros Hr. apply read_docx_paragraphs_returned in Hr as (entries & body & _ & _ & ->).
  apply Forall_forall. intros line Hline.
  apply list_elem_of_omap in Hline as (p & _ & Hp).
  by eapply paragraph_line_normalized.
Qed.

(** X11. Reading leaves the world as it is, whatever the outcome, and
    fails with [FileNotFoundError] for a missing file, [BadZipFile] for a
    file that is no archive, [KeyError] for an archive without the entry
    [word/document.xml] and [ParseError] for a body that is no XML. *)
Theorem read_docx_paragraphs_errors (docx_path : str) (w : world) :
  (read_docx_paragraphs docx_path w).2 = w
  ∧ (files w !! docx_path = None →
     (read_docx_paragraphs docx_path w).1 = Raised FileNotFoundError)
  ∧ (∀ b, files w !! docx_path = Some b → (∀ entries, b ≠ Zip entries) →
     (read_docx_paragraphs docx_path w).1 = Raised BadZipFile)
  ∧ (∀ entries, files w !! docx_path = Some (Zip entries) →
     lit "word/document.xml" ∉ namelist entries →
     (read_docx_paragraphs docx_path w).1 = Raised KeyError)
  ∧ (∀ entries e, files w !! docx_path = Some (Zip entries) →
     last (filter (λ e, e.1 = lit "word/document.xml") entries) = Some e →
     (∀ body, e.2 ≠ XmlDoc body) →
     (read_docx_paragraphs docx_path w).1 = Raised ParseError).
Proof.
  split_and!.
  - apply read_docx_paragraphs_world.
  - intros Hf. unfold read_docx_paragraphs, mbind, io_bind, open_zip. by rewrite Hf.
  - intros b Hf Hb. unfold read_docx_paragraphs, mbind, io_bind, open_zip. rewrite Hf.
    destruct b; try done. by destruct (Hb entries).
  - intros entries Hf Hno.
    unfold read_docx_paragraphs, mbind, io_bind, open_zip, zip_read. rewrite Hf.
    destruct (last (filter (λ e, e.1 = lit "word/document.xml") entries)) as [e|] eqn:He;
      [|done].
    exfalso. apply Hno. apply last_Some_elem_of in He.
    apply list_elem_of_filter in He as [He Hin]. rewrite <- He.
    by apply list_elem_of_fmap_2.
  - intros entries e Hf He Hb.
    unfold read_docx_paragraphs, mbind, io_bind, open_zip, zip_read, fromstring,
      mret, io_ret, raise.
    rewrite Hf, He. cbv beta iota zeta.
    destruct e.2 as [es|body|t|data] eqn:Hd; try done. by destruct (Hb body).
Qed.

(** Witness of [read_docx_paragraphs_normalized]: the second sample
    archive, whose runs hold a double space. *)
Lemma read_docx_paragraphs_normalized_witness :
  Forall normalized
    [lit "The Sports Platform"; lit "Module 1"; lit "Framework"; lit "Builds trust."].
Proof.
  apply (read_docx_paragraphs_normalized sports_docx world_bis).
  vm_compute. reflexivity.
Defined.

(** ** Image extraction *)

Lemma Returned_inj {A} (a b : A) : Returned a = Returned b → a = b.
Proof. by intros [= ->]. Qed.

(** An entry that the archive lists can be read. *)
Lemma zip_read_listed (entries : list (str * blob)) (f : str) :
  f ∈ namelist entries →
  ∃ data, (f, data) ∈ entries ∧ ∀ w, zip_read entries f w = (Returned data, w).
Proof.
  intros Hf. unfold namelist in Hf. apply list_elem_of_fmap in Hf as (e & -> & He).
  assert (Hne : filter (λ e', e'.1 = e.1) entries ≠ []).
  { intros Hnil. eapply (filter_nil_not_elem_of _ _ e) in Hnil; done. }
  apply last_is_Some in Hne as [e' He']. pose proof He' as Hin.
  apply last_Some_elem_of, list_elem_of_filter in Hin as [Hname Hin].
  exists e'.2. split.
  - rewrite <- Hname. by destruct e'.
  - intros w. unfold zip_read. by rewrite He'.
Qed.

(** The loop over listed entries returns their base names and writes one
    file for each, under [out_folder], with the data of an entry of that
    base name. *)
Lemma extract_loop_listed (entries : list (str * blob)) (out_folder : str)
    (media_files extracted : list str) :
  Forall (λ f, f ∈ namelist entries) media_files →
  ∃ ws,
    (∀ w, extract_loop entries out_folder media_files extracted w
          = (Returned (extracted ++ (path_name <$> media_files)), effects ws [] w))
    ∧ ws.*1 = (λ f, path_join out_folder (path_name f)) <$> media_files
    ∧ Forall (λ x, ∃ f, (f, x.2) ∈ entries
                        ∧ x.1 = path_join out_folder (path_name f)) ws.
Proof.
  intros Hall. revert extracted.
  induction Hall as [|f fs Hf _ IH]; intros extracted.
  - exists []. split_and!; [|done|constructor].
    intros w. by rewrite effects_nil, app_nil_r.
  - destruct (zip_read_listed entries f Hf) as (data & Hin & Hread).
    destruct (IH (extracted ++ [path_name f])) as (ws & Hloop & Hpaths & Hdata).
    exists ((path_join out_folder (path_name f), data) :: ws). split_and!.
    + intros w. cbn [extract_loop].
      rewrite (bind_returned _ _ w w data (Hread w)).
      rewrite (bind_returned _ _ w _ () (write_effects _ _ w)).
      rewrite Hloop, effects_app, <- app_assoc. done.
    + rewrite fmap_cons. cbn [fmap list_fmap]. by rewrite <- Hpaths.
    + apply Forall_cons. split; [by exists f | done].
Qed.

Lemma media_files_listed (entries : list (str * blob)) :
  Forall (λ f, f ∈ namelist entries)
    (filter (λ f, startswith (lit "word/media/") f = true) (namelist entries)).
Proof. apply Forall_forall. intros f Hf. by apply list_elem_of_filter in Hf as [_ Hf]. Qed.


(** What the files hold after a list of writes. *)
Lemma lookup_effects (ws : list (str * blob)) (pr : list str) (w : world) (path : str) :
  files (effects ws pr w) !! path
  = match last (filter (λ x, x.1 = path) ws) with
    | Some x => Some x.2
    | None => files w !! path
    end.
Proof.
  induction ws as [|[q b] ws IH] using rev_ind; [done|].
  unfold effects in *. cbn [files] in *. rewrite foldl_app, filter_app.
  cbn [foldl fst snd].
  destruct (decide (q = path)) as [-> | Hne].
  - rewrite lookup_insert_eq, filter_cons_True by done.
    by rewrite filter_nil, last_snoc.
  - rewrite lookup_insert_ne by done. rewrite filter_cons_False by done.
    by rewrite filter_nil, app_nil_r.
Qed.

(** The two ways in which the extraction ends. *)
Lemma extract_docx_images_cases (docx_path out_folder : str) (w : world) :
  (∃ e, extract_docx_images docx_path out_folder w = (Raised e, w))
  ∨ ∃ entries ws,
      files w !! docx_path = Some (Zip entries)
      ∧ extract_docx_images docx_path out_folder w
        = (Returned (path_name <$> filter (λ f, startswith (lit "word/media/") f = true)
                                          (namelist entries)),
           effects ws [] w)
      ∧ ws.*1 = (λ f, path_join out_folder (path_name f))
                <$> filter (λ f, startswith (lit "word/media/") f = true) (namelist entries)
      ∧ Forall (λ x, ∃ f, (f, x.2) ∈ entries
                          ∧ x.1 = path_join out_folder (path_name f)) ws.
Proof.
  unfold extract_docx_images. rewrite (bind_returned _ _ w w () eq_refl).
  destruct (files w !! docx_path) as [[entries|body|t|data]|] eqn:Hf.
  2-5: left; eexists; apply bind_raised; unfold open_zip; by rewrite Hf.
  right.
  destruct (extract_loop_listed entries out_folder _ [] (media_files_listed entries))
    as (ws & Hloop & Hpaths & Hdata).
  exists entries, ws. split_and!; [done | | done | done].
  rewrite (bind_returned _ _ w w entries) by (unfold open_zip; by rewrite Hf).
  by rewrite Hloop.
Qed.

(** X13. The extraction prints nothing and writes only under
    [out_folder]; after it, each returned name is a file of [out_folder]
    that holds the data of an archive entry of that base name. *)
Theorem extract_docx_images_writes (docx_path out_folder : str) (w : world) :
  let r := extract_docx_images docx_path out_folder w in
  stdout r.2 = stdout w
  ∧ (∀ path, startswith (out_folder ++ lit "/") path = false →
       files r.2 !! path = files w !! path)
  ∧ (∀ names name, r.1 = Returned names → name ∈ names →
       ∃ entries f data,
         files w !! docx_path = Some (Zip entries)
         ∧ (f, data) ∈ entries ∧ path_name f = name
         ∧ files r.2 !! path_join out_folder name = Some data).
Proof.
  intros r. unfold r.
  destruct (extract_docx_images_cases docx_path out_folder w)
    as [[e ->] | (entries & ws & Hf & -> & Hpaths & Hdata)].
  { split_and!; [done | done | intros names name [=]]. }
  cbn [fst snd]. split_and!.
  - unfold effects. cbn [stdout]. by rewrite app_nil_r.
  - intros path Hout. rewrite lookup_effects.
    destruct (last (filter (λ x, x.1 = path) ws)) as [x|] eqn:Hx; [|done].
    exfalso. apply last_Some_elem_of, list_elem_of_filter in Hx as [Hxp Hin].
    rewrite Forall_forall in Hdata. destruct (Hdata x Hin) as (f & _ & Hxf).
    rewrite <- Hxp, Hxf in Hout. unfold path_join in Hout.
    rewrite app_assoc, startswith_app in Hout. done.
  - intros names name Hret Hname. symmetry in Hret.
    apply Returned_inj in Hret. subst names.
    apply list_elem_of_fmap in Hname as (f0 & -> & Hf0).
    assert (Hw : path_join out_folder (path_name f0) ∈ ws.*1).
    { rewrite Hpaths.
      by apply (list_elem_of_fmap_2 (λ f, path_join out_folder (path_name f))). }
    apply list_elem_of_fmap in Hw as (x0 & Hx0 & Hin0).
    assert (Hne : filter (λ x, x.1 = path_join out_folder (path_name f0)) ws ≠ []).
    { assert (Hin' : x0 ∈ filter (λ x, x.1 = path_join out_folder (path_name f0)) ws)
        by (apply list_elem_of_filter; split; [by symmetry | done]).
      intros Hnil. rewrite Hnil in Hin'. by apply elem_of_nil in Hin'. }
    apply last_is_Some in Hne as [x Hx].
    rewrite lookup_effects, Hx.
    apply last_Some_elem_of, list_elem_of_filter in Hx as [Hxp Hin].
    rewrite Forall_forall in Hdata. destruct (Hdata x Hin) as (f & Hfe & Hxf).
    exists entries, f, x.2. split_and!; [done | done | | done].
    rewrite Hxf in Hxp. unfold path_join in Hxp.
    by apply app_inv_head, app_inv_head in Hxp.
Qed.


(** ** Driver: what a run writes *)

Lemma image_path_output (key name : str) :
  output_path (path_join (path_join IMG_DIR key) name).
Proof.
  left. unfold path_join, IMG_DIR. apply startswith_spec.
  exists (key ++ lit "/" ++ name).
  change (lit "images/") with (lit "images" ++ lit "/").
  by rewrite <- !app_assoc.
Qed.

Lemma page_path_output (key : str) :
  output_path (path_join OUT_DIR (key ++ lit ".html")).
Proof.
  right. unfold path_join, OUT_DIR. apply startswith_spec.
  exists (key ++ lit ".html").
  change (lit "platforms/") with (lit "platforms" ++ lit "/").
  by rewrite <- !app_assoc.
Qed.

Section Driver_writes.
Context `{Unicode}.

(** One entry writes output paths only. *)
Lemma main_entry_outputs (entry : str * str) (w : world) :
  ∃ o ws pr,
    main_entry entry w = (o, effects ws pr w)
    ∧ Forall (λ x, output_path x.1) ws.
Proof.
  destruct entry as [key filename]. unfold main_entry.
  rewrite (bind_returned _ _ w w (bool_decide (is_Some (files w !! filename)))) by done.
  destruct (bool_decide (is_Some (files w !! filename))); cbn [negb].
  2:{ eexists _, [], _. rewrite print_effects. split; [reflexivity | constructor]. }
  set (rd := lit "[READ] " ++ filename).
  rewrite (bind_returned _ _ _ _ () (print_effects rd w)).
  pose proof (read_docx_paragraphs_frame filename (effects [] [rd] w)
                (effects [] [rd] w) eq_refl) as Hr.
  destruct (read_docx_paragraphs filename (effects [] [rd] w)).1 as [paras|e].
  2:{ exists (Raised e), [], [rd]. split; [by apply bind_raised | constructor]. }
  rewrite (bind_returned _ _ _ _ paras Hr).
  destruct (extract_docx_images_cases filename (path_join IMG_DIR key) (effects [] [rd] w))
    as [[e Hx] | (entries & ws & _ & Hx & _ & Hdata)].
  { exists (Raised e), [], [rd]. split; [by apply bind_raised | constructor]. }
  rewrite (bind_returned _ _ _ _ _ Hx).
  eexists (Returned ()), _, _.
  unfold mbind, io_bind. rewrite !write_effects, !print_effects, !effects_app.
  split; [reflexivity|].
  repeat first
    [ solve [constructor]
    | apply Forall_app; split
    | apply Forall_cons; split
    | apply page_path_output
    | (eapply Forall_impl; [exact Hdata|];
       intros x (f & _ & ->); apply image_path_output) ].
Qed.

Lemma for_each_outputs {A} (body : A → io unit) (xs : list A) (w : world) :
  (∀ x w, ∃ o ws pr, body x w = (o, effects ws pr w) ∧ Forall (λ x, output_path x.1) ws) →
  ∃ o ws pr,
    for_each xs body w = (o, effects ws pr w) ∧ Forall (λ x, output_path x.1) ws.
Proof.
  intros Hbody. revert w. induction xs as [|x xs IH]; intros w.
  - exists (Returned ()), [], []. by rewrite effects_nil.
  - cbn [for_each]. destruct (Hbody x w) as (o & ws & pr & Hx & Hws).
    destruct o as [[]|e].
    2:{ exists (Raised e), ws, pr. split; [by apply bind_raised | done]. }
    rewrite (bind_returned _ _ _ _ () Hx).
    destruct (IH (effects ws pr w)) as (o' & ws' & pr' & Hxs & Hws').
    exists o', (ws ++ ws'), (pr ++ pr'). rewrite Hxs, effects_app.
    split; [done | by apply Forall_app].
Qed.

Lemma main_outputs (w : world) :
  ∃ o ws pr, main w = (o, effects ws pr w) ∧ Forall (λ x, output_path x.1) ws.
Proof.
  unfold main, main_loop, mkdir.
  rewrite !(bind_returned (mret ()) _ _ _ () eq_refl).
  destruct (for_each_outputs main_entry DOCS w main_entry_outputs)
    as (o & ws & pr & Hloop & Hws).
  destruct o as [[]|e].
  2:{ exists (Raised e), ws, pr. split; [by apply bind_raised | done]. }
  rewrite (bind_returned _ _ _ _ () Hloop).
  eexists (Returned ()), ws, _. rewrite print_effects, effects_app, app_nil_r.
  split; [reflexivity | done].
Qed.

Lemma main_frame (w : world) (path : str) :
  ¬ output_path path → files (main w).2 !! path = files w !! path.
Proof.
  intros Hout. destruct (main_outputs w) as (o & ws & pr & -> & Hws).
  cbn [snd]. rewrite lookup_effects.
  destruct (last (filter (λ x, x.1 = path) ws)) as [x|] eqn:Hx; [|done].
  apply last_Some_elem_of, list_elem_of_filter in Hx as [Hxp Hin].
  rewrite Forall_forall in Hws. specialize (Hws x Hin). by rewrite Hxp in Hws.
Qed.

Lemma source_not_output (entry : str * str) : entry ∈ DOCS → ¬ output_path entry.2.
Proof.
  intros He. unfold DOCS in He.
  repeat (apply elem_of_cons in He as [-> | He]); [..|by apply elem_of_nil in He];
    intros [Hp | Hp]; vm_compute in Hp; discriminate.
Qed.

(** X14. A run changes no file outside [images/] and [platforms/],
    whatever its outcome; in particular it leaves every configured source
    document as it was. *)
Theorem main_touches_outputs_only (w : world) :
  (∀ path, startswith (lit "images/") path = false →
           startswith (lit "platforms/") path = false →
           files (main w).2 !! path = files w !! path)
  ∧ (∀ entry, entry ∈ DOCS → files (main w).2 !! entry.2 = files w !! entry.2).
Proof.
  split.
  - intros path Hi Hp. apply main_frame. intros [Ho | Ho]; congruence.
  - intros entry He. by apply main_frame, source_not_output.
Qed.


Lemma effects_twice (ws : list (str * blob)) (pr pr' : list str) (w : world) :
  files (effects ws pr' (effects ws pr w)) = files (effects ws pr w).
Proof.
  apply map_eq. intros path. rewrite !lookup_effects.
  by destruct (last (filter (λ x, x.1 = path) ws)).
Qed.

(** X16. Running again changes nothing: on the world that a run leaves,
    a second run ends the same way and leaves the same files. *)
Theorem main_rerun (w : world) :
  (main (main w).2).1 = (main w).1
  ∧ files (main (main w).2).2 = files (main w).2.
Proof.
  assert (Hsrc : ∀ entry, entry ∈ DOCS →
                   files w !! entry.2 = files (main w).2 !! entry.2).
  { intros entry He. symmetry. by apply main_frame, source_not_output. }
  destruct (main_same_effects w (main w).2 Hsrc) as (o & ws & pr & Hw & Hw').
  rewrite Hw'. rewrite Hw. cbn [fst snd]. split; [done | apply effects_twice].
Qed.



End Driver_writes.



(** ** Page Assembler: one figure for each image *)

Lemma count_sub_sep_mid (n a t b : str) (z : N) :
  z ∉ n → n ≠ [] →
  count_sub n (a ++ (z :: t) ++ b) = (count_sub n a + count_sub n (t ++ b))%nat.
Proof. intros Hz Hn. by apply count_sub_sep. Qed.

Lemma regroup_gallery {A} (a b c d : list A) : (a ++ b ++ c) ++ d = a ++ b ++ c ++ d.
Proof. by rewrite <- !app_assoc. Qed.

Lemma count_figure (platform_key name : str) :
  60 ∉ platform_key →
  count_sub (lit "<figure") (figure platform_key name) = 1%nat.
Proof.
  intros Hkey. unfold figure. compute_needle.
  rewrite count_sub_app by (vm_compute; reflexivity).
  rewrite (count_sub_skip 60 _ platform_key) by done.
  repeat first
    [ rewrite count_sub_escape
    | rewrite count_sub_app by (vm_compute; reflexivity) ].
  vm_compute. reflexivity.
Qed.

Lemma count_figures (platform_key : str) (names : list str) :
  60 ∉ platform_key →
  count_sub (lit "<figure") (join newline (figure platform_key <$> names))
  = length names.
Proof.
  intros Hkey. rewrite count_sub_join by by_compute.
  induction names as [|name names IH]; [done|].
  rewrite fmap_cons. cbn [fmap list_fmap sum_list length].
  rewrite count_figure by done. unfold id. by rewrite <- IH.
Qed.

Section Page_figures.
Context `{Unicode}.

(** X18. With a key that holds no [<], the page of the pipeline holds
    exactly one [<figure] for each extracted image, and none without
    images. *)
Theorem wrap_page_figures (platform_key title : str) (paras extracted_images : list str) :
  60 ∉ platform_key →
  count_sub (lit "<figure")
    (wrap_page platform_key title (build_content_html paras) extracted_images)
  = length extracted_images.
Proof.
  intros Hkey.
  assert (Hm : lit "<figure" ∈ gallery_markers)
    by apply list_elem_of_further, list_elem_of_here.
  destruct extracted_images as [|name names].
  { rewrite count_sub_wrap_page_no_images by done. by apply count_marker_content. }
  pose proof (count_figures platform_key (name :: names) Hkey) as Hfigs.
  pose proof (count_marker_content _ paras Hm) as Hcontent.
  unfold wrap_page, gallery. cbv zeta.
  set (imgs := join newline (figure platform_key <$> name :: names)) in *.
  set (content := build_content_html paras) in *.
  rewrite (regroup_gallery Page.gallery_before imgs Page.gallery_after).
  let t := eval vm_compute in Page.page_before_gallery in
  change Page.page_before_gallery with t.
  let t := eval vm_compute in Page.gallery_after in
  change Page.gallery_after with t.
  revert Hfigs Hcontent. compute_needle. intros Hfigs Hcontent.
  repeat first
    [ rewrite count_sub_escape
    | rewrite (count_sub_sep_mid _ content) by (by_compute || done)
    | rewrite (count_sub_sep_mid _ imgs) by (by_compute || done)
    | rewrite count_sub_app by (vm_compute; reflexivity) ].
  rewrite Hfigs, Hcontent.
  vm_compute (count_sub _ Page.page_before_title).
  vm_compute (count_sub _ Page.page_before_nav).
  vm_compute (count_sub _ Page.nav).
  vm_compute (count_sub _ Page.page_before_h1).
  vm_compute (count_sub _ Page.page_before_content).
  vm_compute (count_sub _ Page.gallery_before).
  vm_compute (count_sub _ Page.page_after_gallery).
  repeat match goal with
         | |- context [count_sub ?n (?x :: ?l)] =>
           let v := eval vm_compute in (count_sub n (x :: l)) in
           change (count_sub n (x :: l)) with v
         end.
  cbn [length]. lia.
Qed.

End Page_figures.

(** Witness of [wrap_page_figures]. *)
Lemma wrap_page_figures_witness :
  count_sub (lit "<figure")
    (wrap_page (lit "sports") (lit "Sports <1>")
       (@build_content_html ascii_unicode [lit "Sports <1>"; lit "Framework"])
       [lit "image1.png"; lit "a<figure.png"])
  = 2%nat.
Proof.
  apply (@wrap_page_figures ascii_unicode (lit "sports") (lit "Sports <1>")
           [lit "Sports <1>"; lit "Framework"] [lit "image1.png"; lit "a<figure.png"]).
  by_compute.
Defined.
(** Witness of [build_content_html_tags]: the first [<] of a fragment
    whose paragraph holds a [<] of its own. *)
Lemma build_content_html_tags_witness :
  ∃ d b', drop 1 (@build_content_html ascii_unicode [lit "a < b"]) = d :: b'
          ∧ d ∈ tag_heads.
Proof.
  apply (@build_content_html_tags ascii_unicode [lit "a < b"] []).
  vm_compute. reflexivity.
Defined.

(** Witness of [escape_no_markup]: the ampersand of an entity. *)
Lemma escape_no_markup_witness :
  38 ≠ 60 ∧ 38 ≠ 62 ∧ 38 ≠ dquote ∧ 38 ≠ 39.
Proof.
  apply (escape_no_markup (lit "<b>")). by_compute.
Defined.

(** ** Callout block *)



(** ** Driver: the pages of a run that ends normally *)

Ltac find_elem :=
  solve [ apply list_elem_of_here
        | apply elem_of_app; left; find_elem
        | apply elem_of_app; right; find_elem ].

Section Driver_pages.
Context `{Unicode}.

(** What one entry writes: images under [images/], then its page. *)
Lemma main_entry_page (key filename : str) (w : world) :
  ∃ o ws pr,
    main_entry (key, filename) w = (o, effects ws pr w)
    ∧ Forall (λ x, output_path x.1
                   ∧ (startswith (lit "images/") x.1 = true ∨ ∃ html, x.2 = Text html)) ws
    ∧ (o = Returned () → is_Some (files w !! filename) →
       ∃ html, (path_join OUT_DIR (key ++ lit ".html"), Text html) ∈ ws).
Proof.
  unfold main_entry.
  rewrite (bind_returned _ _ w w (bool_decide (is_Some (files w !! filename)))) by done.
  destruct (bool_decide (is_Some (files w !! filename))) eqn:Hpresent; cbn [negb].
  2:{ eexists _, [], _. rewrite print_effects. split_and!; [reflexivity | constructor |].
      intros _ Hsome. by apply bool_decide_eq_false in Hpresent. }
  set (rd := lit "[READ] " ++ filename).
  rewrite (bind_returned _ _ _ _ () (print_effects rd w)).
  pose proof (read_docx_paragraphs_frame filename (effects [] [rd] w)
                (effects [] [rd] w) eq_refl) as Hr.
  destruct (read_docx_paragraphs filename (effects [] [rd] w)).1 as [paras|e].
  2:{ exists (Raised e), [], [rd]. split_and!; [by apply bind_raised | constructor | done]. }
  rewrite (bind_returned _ _ _ _ paras Hr).
  destruct (extract_docx_images_cases filename (path_join IMG_DIR key) (effects [] [rd] w))
    as [[e Hx] | (entries & ws & _ & Hx & _ & Hdata)].
  { exists (Raised e), [], [rd]. split_and!; [by apply bind_raised | constructor | done]. }
  rewrite (bind_returned _ _ _ _ _ Hx).
  eexists (Returned ()), _, _.
  unfold mbind, io_bind. rewrite !write_effects, !print_effects, !effects_app.
  split_and!; [reflexivity | |].
  - repeat first
      [ solve [constructor]
      | apply Forall_app; split
      | apply Forall_cons; split
      | (split; [apply page_path_output | right; eexists; reflexivity])
      | (eapply Forall_impl; [exact Hdata|];
         intros x (f & _ & ->); split; [apply image_path_output|];
         left; by destruct (image_path_output key (path_name f))) ].
  - intros _ _. eexists. find_elem.
Qed.

Lemma main_loop_pages (docs : list (str * str)) (w : world) :
  Forall (λ e, ¬ output_path e.2) docs →
  ∃ o ws pr,
    main_loop docs w = (o, effects ws pr w)
    ∧ Forall (λ x, output_path x.1
                   ∧ (startswith (lit "images/") x.1 = true ∨ ∃ html, x.2 = Text html)) ws
    ∧ (o = Returned () →
       ∀ key filename, (key, filename) ∈ docs → is_Some (files w !! filename) →
       ∃ html, (path_join OUT_DIR (key ++ lit ".html"), Text html) ∈ ws).
Proof.
  unfold main_loop. intros Hdocs. revert w.
  induction Hdocs as [|[key filename] docs Hsrc _ IH]; intros w.
  - exists (Returned ()), [], []. rewrite effects_nil.
    split_and!; [done | constructor |]. intros _ k f Hin. by apply elem_of_nil in Hin.
  - cbn [for_each].
    destruct (main_entry_page key filename w) as (o & ws & pr & Hx & Hws & Hpage).
    destruct o as [[]|e].
    2:{ exists (Raised e), ws, pr. split_and!; [by apply bind_raised | done | done]. }
    rewrite (bind_returned _ _ _ _ () Hx).
    destruct (IH (effects ws pr w)) as (o' & ws' & pr' & Hxs & Hws' & Hpages).
    exists o', (ws ++ ws'), (pr ++ pr'). rewrite Hxs, effects_app.
    split_and!; [done | by apply Forall_app |].
    intros -> k f Hin Hsome. apply elem_of_cons in Hin as [[= -> ->] | Hin].
    + destruct (Hpage eq_refl Hsome) as [html Hhtml]. exists html.
      apply elem_of_app. by left.
    + destruct (Hpages eq_refl k f Hin) as [html Hhtml].
      * rewrite lookup_effects.
        destruct (last (filter (λ x, x.1 = f) ws)) as [x|] eqn:Hlast; [eauto | done].
      * exists html. apply elem_of_app. by right.
Qed.

(** X20. When a run ends normally, every configured entry whose source
    was there has its page: [platforms/<key>.html] holds a page
    afterwards. *)
Theorem main_pages_written (w : world) (key filename : str) :
  (main w).1 = Returned () →
  (key, filename) ∈ DOCS →
  is_Some (files w !! filename) →
  ∃ html, files (main w).2 !! path_join OUT_DIR (key ++ lit ".html") = Some (Text html).
Proof.
  intros Hret Hin Hsome.
  assert (Hdocs : Forall (λ e, ¬ output_path e.2) DOCS).
  { apply Forall_forall. intros e He. by apply source_not_output. }
  destruct (main_loop_pages DOCS w Hdocs) as (o & ws & pr & Hloop & Hws & Hpages).
  unfold main, mkdir in *.
  rewrite !(bind_returned (mret ()) _ _ _ () eq_refl) in *.
  destruct o as [[]|e].
  2:{ rewrite (bind_raised _ _ _ _ e Hloop) in Hret. done. }
  rewrite (bind_returned _ _ _ _ () Hloop) in *.
  rewrite print_effects, effects_app, app_nil_r. cbn [snd]. rewrite lookup_effects.
  destruct (Hpages eq_refl key filename Hin Hsome) as [html Hhtml].
  assert (Hne : filter (λ x, x.1 = path_join OUT_DIR (key ++ lit ".html")) ws ≠ []).
  { assert (Hin' : (path_join OUT_DIR (key ++ lit ".html"), Text html)
                   ∈ filter (λ x, x.1 = path_join OUT_DIR (key ++ lit ".html")) ws)
      by (by apply list_elem_of_filter).
    intros Hnil. rewrite Hnil in Hin'. by apply elem_of_nil in Hin'. }
  apply last_is_Some in Hne as [x Hx]. rewrite Hx.
  apply last_Some_elem_of, list_elem_of_filter in Hx as [Hxp Hxin].
  rewrite Forall_forall in Hws. destruct (Hws x Hxin) as [_ [Himg | [html' ->]]]; [|eauto].
  exfalso. rewrite Hxp in Himg. unfold path_join, OUT_DIR in Himg.
  vm_compute in Himg. discriminate.
Qed.

End Driver_pages.

(** Witness of [main_pages_written]: the sports page, the other sources
    missing. *)
Lemma main_pages_written_witness :
  ∃ html, files (@main ascii_unicode world_missing).2
            !! path_join OUT_DIR (lit "sports" ++ lit ".html") = Some (Text html).
Proof.
  apply (@main_pages_written ascii_unicode world_missing (lit "sports") sports_docx).
  - vm_compute. reflexivity.
  - unfold DOCS. apply list_elem_of_further, list_elem_of_here.
  - vm_compute. eexists. reflexivity.
Defined.
